(** * journal.go: the journald writer of the log package

    A shallow embedding of [JournalWriter] (src/journal.go): the field
    encoder that renders a decoded entry in the journal export format, the
    once-only endpoint setup, the direct datagram send and the
    temporary-file fallback for oversized entries, and [Close].

    Go strings are modelled as [string] (a sequence of 8-bit characters),
    byte slices as [list byte], Go's [int] and [uint64] as [Z], the [error]
    interface as [option error] with [None] for the nil interface. *)

From Stdlib Require Import ZArith List String Ascii Bool Lia.
From Stdlib Require Import Strings.Byte.
Import ListNotations.

Local Open Scope string_scope.
Local Open Scope Z_scope.

Set Warnings "-register-all".

(** ** Bytes and strings *)

Module Bytes.

(** [byte(v)]: the conversion of an unsigned integer to a byte keeps the
    low eight bits. *)
Definition byte_of_Z (v : Z) : byte :=
  match Byte.of_N (Z.to_N (Z.land v 255)) with
  | Some b => b
  | None => x00
  end.

Definition Z_of_byte (b : byte) : Z := Z.of_N (Byte.to_N b).

(** [[]byte(s)] and [len(s)]. *)
Definition bytes (s : string) : list byte := list_byte_of_string s.

Definition len (s : string) : Z := Z.of_nat (String.length s).

(** The characters the encoder cares about. *)
Definition newline : ascii := "010"%char.
Definition LF : byte := x0a.
Definition EQ : byte := x3d.

(** [binary.LittleEndian.PutUint64]: [b[i] = byte(v >> (8*i))]. *)
Definition PutUint64 (v : Z) : list byte :=
  [ byte_of_Z v;
    byte_of_Z (Z.shiftr v 8);
    byte_of_Z (Z.shiftr v 16);
    byte_of_Z (Z.shiftr v 24);
    byte_of_Z (Z.shiftr v 32);
    byte_of_Z (Z.shiftr v 40);
    byte_of_Z (Z.shiftr v 48);
    byte_of_Z (Z.shiftr v 56) ].

(** [binary.LittleEndian.Uint64], the reader a consumer of the export
    format applies to the eight length bytes. *)
Fixpoint Uint64 (b : list byte) : Z :=
  match b with
  | [] => 0
  | x :: r => Z_of_byte x + 256 * Uint64 r
  end.

(** [uint64(n)] for a Go [int] [n]: wrap-around modulo 2^64. *)
Definition uint64 (n : Z) : Z := n mod 2 ^ 64.

(** [strings.ContainsRune(s, r)] for [r] below [utf8.RuneSelf]: a byte
    search ([IndexByte(s, byte(r)) >= 0]). *)
Fixpoint ContainsRune (s : string) (r : ascii) : bool :=
  match s with
  | EmptyString => false
  | String c s' => if Ascii.eqb c r then true else ContainsRune s' r
  end.

End Bytes.
Import Bytes.

(** ** strings.ToUpper *)

Module Strings.

Fixpoint Map (f : ascii -> ascii) (s : string) : string :=
  match s with
  | EmptyString => EmptyString
  | String c s' => String (f c) (Map f s')
  end.

(** The scan at the head of [strings.ToUpper]: is every byte below
    [utf8.RuneSelf] (0x80)? *)
Fixpoint isASCII (s : string) : bool :=
  match s with
  | EmptyString => true
  | String c s' => if (N_of_ascii c <? 128)%N then isASCII s' else false
  end.

(** ['a' <= c && c <= 'z'] then [c -= 'a' - 'A']. *)
Definition upperASCII (c : ascii) : ascii :=
  let n := N_of_ascii c in
  if ((97 <=? n) && (n <=? 122))%N then ascii_of_N (n - 32) else c.

Section ToUpper.

(** [strings.Map(unicode.ToUpper, s)], the path [strings.ToUpper] takes
    for a string with a byte at or above 0x80.  The Unicode case tables
    belong to Go's library; the mapping is a parameter here. *)
Variable unicodeToUpper : string -> string.

Definition ToUpper (s : string) : string :=
  if isASCII s then Map upperASCII s else unicodeToUpper s.

End ToUpper.

End Strings.

(** ** The decoded entry *)

(** Modelled from the spec: the [Level] type and its constants are declared
    in another file of the package.  The spec names seven severity levels
    and lets any other value of the type occur ("any unrecognized level");
    [OtherLevel v] stands for a value [v] that is none of the seven. *)
Inductive Level : Type :=
| TraceLevel
| DebugLevel
| InfoLevel
| WarnLevel
| ErrorLevel
| FatalLevel
| PanicLevel
| OtherLevel (v : Z).

(** One element of [dot.KeyValue]. *)
Record KeyValue : Type := mkKV { Key : string; Value : string }.

(** Modelled from the spec: the [dot] struct filled by [jsonToDot] is
    declared in another file of the package; [WriteEntry] reads its
    [Level], [Message] and [KeyValue] fields. *)
Record dot : Type := mkDot {
  dLevel : Level;
  Message : string;
  KeyValues : list KeyValue
}.

(** Modelled from the spec: [Entry] is declared in another file of the
    package; [WriteEntry] reads its [buf], the raw serialized record. *)
Record Entry : Type := mkEntry { buf : list byte }.

(** Modelled from the spec: [b2s] is declared in another file of the
    package; it views a byte slice as a string, byte for byte. *)
Definition b2s (b : list byte) : string := string_of_list_byte b.

(** ** The field encoder (journal.go, lines 65-110) *)

Module Encoder.

(** [fmt.Fprintln(w, s)] on the pooled buffer: append [s] and a newline. *)
Definition Fprintln (w : list byte) (s : string) : list byte :=
  w ++ bytes s ++ [LF].

(** [binary.Write(w, binary.LittleEndian, v)] for a [uint64]. *)
Definition binaryWrite (w : list byte) (v : Z) : list byte :=
  w ++ PutUint64 v.

(** [fmt.Fprintf(w, "%s=%s\n", name, value)]. *)
Definition Fprintf (w : list byte) (name value : string) : list byte :=
  w ++ bytes name ++ [EQ] ++ bytes value ++ [LF].

(** The closure [print] of [WriteEntry]. *)
Definition print (w : list byte) (name value : string) : list byte :=
  if ContainsRune value newline then
    let w := Fprintln w name in
    let w := binaryWrite w (uint64 (len value)) in
    Fprintln w value
  else
    Fprintf w name value.

(** The [switch t.Level] of [WriteEntry]. *)
Definition priority (l : Level) : string :=
  match l with
  | TraceLevel => "7"
  | DebugLevel => "7"
  | InfoLevel => "6"
  | WarnLevel => "4"
  | ErrorLevel => "3"
  | FatalLevel => "2"
  | PanicLevel => "0"
  | _ => "5"
  end.

Section Encode.

Variable unicodeToUpper : string -> string.

(** Lines 66-110: the buffer is cut to length zero, then receives the
    priority, the message, one field per key-value pair ([for _, kv :=
    range t.KeyValue]) and the raw record. *)
Definition encodeEntry (t : dot) (raw : list byte) : list byte :=
  let b := [] in
  let b := print b "PRIORITY" (priority (dLevel t)) in
  let b := print b "MESSAGE" (Message t) in
  let b :=
    fold_left
      (fun b kv => print b (Strings.ToUpper unicodeToUpper (Key kv)) (Value kv))
      (KeyValues t) b in
  print b "JSON" (b2s raw).

End Encode.

End Encoder.

(** ** Errors, addresses, connections and files *)

Module Sys.

(** The dynamic values an [error] interface holds in [WriteEntry]: a
    [syscall.Errno], a [*net.OpError] or a [*os.SyscallError] (each either
    a nil pointer of its type or a pointer to a struct whose [Err] field is
    again an [error] interface), or any other error, known by its text. *)
Inductive error : Type :=
| Errno (code : Z)
| OpError (Op : string) (Err : option error)
| NilOpError
| SyscallError (Syscall : string) (Err : option error)
| NilSyscallError
| ErrorString (msg : string).

(** [syscall.EMSGSIZE] and [syscall.ENOBUFS] on linux (the file's build
    tag), with the generic numbering. *)
Definition EMSGSIZE : Z := 90.
Definition ENOBUFS : Z := 105.

(** The error of the net package for an operation on a closed
    connection. *)
Definition ErrNetClosing : error :=
  ErrorString "use of closed network connection".

Record UnixAddr : Type := mkUnixAddr { Name : string; Net : string }.

(** A [*net.UnixConn]: the local address it is bound to and whether its
    descriptor has been closed. *)
Record UnixConn : Type := mkUnixConn { laddr : UnixAddr; closed : bool }.

(** An [*os.File]: its descriptor and its name. *)
Record File : Type := mkFile { Fd : Z; FileName : string }.

(** What the process holds of the operating system: the descriptors of
    the files it has open.  A socket is not among them: it is held, open
    or closed, by its [UnixConn]. *)
Record World : Type := mkWorld { open_files : list Z }.

(** The calls [WriteEntry] and [Close] make, in the order they are made. *)
Inductive Event : Type :=
| EvResolveUnixAddr (net address : string)
| EvListenUnixgram (net : string) (la : UnixAddr)
| EvPoolGet
| EvPoolPut
| EvWriteMsgUnix (b : list byte) (oob : list Z) (to : option UnixAddr)
| EvTempFile (dir pattern : string)
| EvUnlink (name : string)
| EvFileWrite (fd : Z) (b : list byte)
| EvFileClose (fd : Z)
| EvConnClose (la : UnixAddr).

(** The answers of the platform to those calls.  Results are Go's pairs
    of a value and an error: [inl v] for [(v, nil)], [inr e] for
    [(zero, e)]; a count comes with its error. *)
Record Env : Type := mkEnv {
  ResolveUnixAddr : string -> string -> UnixAddr + error;
  ListenUnixgram : string -> UnixAddr -> UnixConn + error;
  sendmsg : list byte -> list Z -> option UnixAddr -> Z * option error;
  TempFile : string -> string -> File + error;
  Unlink : string -> option error;
  write : Z -> list byte -> Z * option error;
  close : UnixAddr -> option error
}.

(** Computations that change the world and record their calls. *)
Definition M (A : Type) : Type := World -> A * World * list Event.

(** What a computation returned, the world it left, the calls it made. *)
Definition result {A : Type} (r : A * World * list Event) : A := fst (fst r).
Definition world {A : Type} (r : A * World * list Event) : World := snd (fst r).
Definition events {A : Type} (r : A * World * list Event) : list Event := snd r.

Definition ret {A : Type} (a : A) : M A := fun s => (a, s, []).

Definition bind {A B : Type} (m : M A) (k : A -> M B) : M B :=
  fun s =>
    let '(a, s1, l1) := m s in
    let '(b, s2, l2) := k a s1 in
    (b, s2, (l1 ++ l2)%list).

Definition emit (e : Event) : M unit := fun s => (tt, s, [e]).

Definition modify (f : World -> World) : M unit := fun s => (tt, f s, []).

(** [defer cleanup] ahead of [body]: the cleanup runs when the body has
    returned, whatever it returned. *)
Definition defer {A : Type} (cleanup : M unit) (body : M A) : M A :=
  bind body (fun a => bind cleanup (fun _ => ret a)).

(** How a call ends for its caller: it returns its results, or it panics
    and the caller gets none.  A panic unwinds through the deferred
    calls, which [defer] runs on a [Panicked] body as on a returned one. *)
Inductive Outcome (A : Type) : Type :=
| Returned (a : A)
| Panicked (v : string).

Arguments Returned {A} a.
Arguments Panicked {A} v.

(** The runtime error of a method call that reads through a nil pointer. *)
Definition nilDereference : string :=
  "runtime error: invalid memory address or nil pointer dereference".

End Sys.
Import Sys.

Declare Scope go_scope.
Delimit Scope go_scope with go.
Notation "x <- m ;; k" := (bind m (fun x => k))
  (at level 61, m at next level, right associativity) : go_scope.
Notation "m ;;; k" := (bind m (fun _ => k))
  (at level 61, right associativity) : go_scope.
Local Open Scope go_scope.

(** ** JournalWriter *)

Module Journal.

(** The struct: [once] is the done flag of the [sync.Once]; [addr] and
    [conn] are pointers, nil until the setup stores them. *)
Record JournalWriter : Type := mkJournalWriter {
  JournalSocket : string;
  once : bool;
  addr : option UnixAddr;
  conn : option UnixConn
}.

(** A writer as the caller declares it: [JournalWriter{JournalSocket: s}]. *)
Definition newWriter (s : string) : JournalWriter :=
  {| JournalSocket := s; once := false; addr := None; conn := None |}.

(** [Close] of a [*net.UnixConn] that is not nil (line 30 is reached
    with [w.conn != nil] only): the descriptor is closed, an error of the
    close wrapped in an [OpError]; closing a closed descriptor is such an
    error and makes no call. *)
Definition connClose (env : Env) (c : UnixConn)
  : M (option error * UnixConn) :=
  if closed c then
    ret (Some (OpError "close" (Some ErrNetClosing)), c)
  else
    emit (EvConnClose (laddr c)) ;;;
    ret (option_map (fun e => OpError "close" (Some e)) (close env (laddr c)),
         {| laddr := laddr c; closed := true |}).

(** [WriteMsgUnix] of a [*net.UnixConn]: on a nil pointer the call panics
    (the method reads the embedded [conn] through the pointer before any
    test); on a closed connection it returns the closed-connection error;
    else the platform's answer. *)
Definition WriteMsgUnix (env : Env) (c : option UnixConn)
    (b : list byte) (oob : list Z) (to : option UnixAddr)
  : M (Outcome (Z * option error)) :=
  match c with
  | None => ret (Panicked nilDereference)
  | Some c =>
      if closed c then
        ret (Returned (0, Some (OpError "write" (Some ErrNetClosing))))
      else
        emit (EvWriteMsgUnix b oob to) ;;;
        ret (Returned (sendmsg env b oob to))
  end.

(** Lines 28-33. *)
Definition Close (env : Env) (w : JournalWriter)
  : M (option error * JournalWriter) :=
  match conn w with
  | Some c =>
      r <- connClose env c ;;
      ret (fst r,
           {| JournalSocket := JournalSocket w; once := once w;
              addr := addr w; conn := Some (snd r) |})
  | None => ret (None, w)
  end.

(** Lines 37-53: [w.once.Do(func() {...})].  The function runs when the
    flag is not set and sets [err], the result variable of the enclosing
    call; a later call finds the flag set, and its own [err] is nil. *)
Definition onceDo (env : Env) (w : JournalWriter)
  : M (option error * JournalWriter) :=
  if once w then ret (None, w)
  else
    let a := {| Net := "unixgram"; Name := JournalSocket w |} in
    let a :=
      if String.eqb (Name a) "" then
        {| Net := Net a; Name := "/run/systemd/journal/socket" |}
      else a in
    emit (EvResolveUnixAddr "unixgram" "") ;;;
    match ResolveUnixAddr env "unixgram" "" with
    | inr e =>
        ret (Some e,
             {| JournalSocket := JournalSocket w; once := true;
                addr := Some a; conn := conn w |})
    | inl autobind =>
        emit (EvListenUnixgram "unixgram" autobind) ;;;
        match ListenUnixgram env "unixgram" autobind with
        | inl c =>
            ret (None,
                 {| JournalSocket := JournalSocket w; once := true;
                    addr := Some a; conn := Some c |})
        | inr e =>
            ret (Some e,
                 {| JournalSocket := JournalSocket w; once := true;
                    addr := Some a; conn := None |})
        end
    end.

(** The type assertions of [err] to [*net.OpError] and of [opErr.Err] to
    [*os.SyscallError]: the pointer (nil as [None]) and the [ok] of the
    assertion. *)
Definition asOpError (err : option error)
  : option (string * option error) * bool :=
  match err with
  | Some (OpError op e) => (Some (op, e), true)
  | Some NilOpError => (None, true)
  | _ => (None, false)
  end.

Definition asSyscallError (err : option error)
  : option (string * option error) * bool :=
  match err with
  | Some (SyscallError sc e) => (Some (sc, e), true)
  | Some NilSyscallError => (None, true)
  | _ => (None, false)
  end.

(** [e != syscall.E...]: an interface differs from an errno unless it
    holds a [syscall.Errno] of that value. *)
Definition neqErrno (e : option error) (code : Z) : bool :=
  match e with
  | Some (Errno c) => negb (c =? code)
  | _ => true
  end.

(** The causes the spec calls size limits: an [OpError] around a
    [SyscallError] around [EMSGSIZE] or [ENOBUFS]. *)
Definition SizeLimit (cause : error) : Prop :=
  exists (op sc : string) (code : Z),
    cause = OpError op (Some (SyscallError sc (Some (Errno code))))
    /\ (code = EMSGSIZE \/ code = ENOBUFS).

Definition isNil {A : Type} (p : option A) : bool :=
  match p with None => true | Some _ => false end.

(** [file.Close()] of the deferred call; its error is dropped. *)
Definition fileClose (f : File) : M unit :=
  emit (EvFileClose (Fd f)) ;;;
  modify (fun s =>
    {| open_files := filter (fun d => negb (d =? Fd f)) (open_files s) |}).

(** Lines 131-152: send the entry through a temporary file whose
    descriptor travels as ancillary data.  [n] is the count left by the
    direct send. *)
Definition fallback (env : Env) (w : JournalWriter) (e : Entry)
    (b : list byte) (n : Z) : M (Outcome (Z * option error)) :=
  emit (EvTempFile "/dev/shm/" "journal.XXXXX") ;;;
  match TempFile env "/dev/shm/" "journal.XXXXX" with
  | inr err => ret (Returned (n, Some err))
  | inl file =>
      modify (fun s => {| open_files := Fd file :: open_files s |}) ;;;
      emit (EvUnlink (FileName file)) ;;;
      match Unlink env (FileName file) with
      | Some err => ret (Returned (n, Some err))
      | None =>
          defer (fileClose file)
            (emit (EvFileWrite (Fd file) b) ;;;
             let '(n, err) := write env (Fd file) b in
             match err with
             | Some _ => ret (Returned (n, err))
             | None =>
                 let rights := [Fd file] in
                 r <- WriteMsgUnix env (conn w) [] rights (addr w) ;;
                 match r with
                 | Panicked v => ret (Panicked v)
                 | Returned r =>
                     match snd r with
                     | None =>
                         ret (Returned (Z.of_nat (List.length (buf e)), None))
                     | Some err => ret (Returned (n, Some err))
                     end
                 end
             end)
      end
  end.

Section WriteEntry.

Variable unicodeToUpper : string -> string.

(** [jsonToDot] is declared in another file of the package: it fills a
    [dot] from the raw record or returns an error.  It is a parameter. *)
Variable jsonToDot : list byte -> dot + error.

(** Lines 112-152: the direct send and what follows it. *)
Definition send (env : Env) (w : JournalWriter) (e : Entry) (b : list byte)
  : M (Outcome (Z * option error)) :=
  r <- WriteMsgUnix env (conn w) b [] (addr w) ;;
  match r with
  | Panicked v => ret (Panicked v)
  | Returned (n, err) =>
      if isNil err then ret (Returned (n, err))
      else
        let '(opErr, ok) := asOpError err in
        if negb ok || isNil opErr then ret (Returned (n, err))
        else
          let '(sysErr, ok) := asSyscallError (match opErr with
                                               | Some (_, inner) => inner
                                               | None => None
                                               end) in
          if negb ok || isNil sysErr then ret (Returned (n, err))
          else
            let cause := match sysErr with
                         | Some (_, inner) => inner
                         | None => None
                         end in
            if neqErrno cause EMSGSIZE && neqErrno cause ENOBUFS
            then ret (Returned (n, err))
            else fallback env w e b n
  end.

(** Lines 36-153: how the call ends, with the count and the error when
    it returns, and the writer it leaves either way. *)
Definition WriteEntry (env : Env) (w : JournalWriter) (e : Entry)
  : M (Outcome (Z * option error) * JournalWriter) :=
  r <- onceDo env w ;;
  let '(err, w) := r in
  if negb (isNil err) then ret (Returned (0, err), w)
  else
    match jsonToDot (buf e) with
    | inr err => ret (Returned (0, Some err), w)
    | inl t =>
        emit EvPoolGet ;;;
        r <- defer (emit EvPoolPut)
               (let b := Encoder.encodeEntry unicodeToUpper t (buf e) in
                send env w e b) ;;
        ret (r, w)
    end.

(** The error and the count of a call that returns, and the writer a
    call leaves. *)
Definition errorOf (r : Outcome (Z * option error) * JournalWriter)
  : Outcome (option error) :=
  match fst r with
  | Returned (_, err) => Returned err
  | Panicked v => Panicked v
  end.
Definition countOf (r : Outcome (Z * option error) * JournalWriter)
  : Outcome Z :=
  match fst r with
  | Returned (n, _) => Returned n
  | Panicked v => Panicked v
  end.
Definition writerOf (r : Outcome (Z * option error) * JournalWriter)
  : JournalWriter :=
  snd r.

(** The writers a program can hold: declared, then used through
    [WriteEntry] and [Close] (the fields are not exported). *)
Inductive reachable : JournalWriter -> Prop :=
| reach_new (s : string) : reachable (newWriter s)
| reach_WriteEntry (w : JournalWriter) (env : Env) (e : Entry) (os : World) :
    reachable w ->
    reachable (writerOf (result (WriteEntry env w e os)))
| reach_Close (w : JournalWriter) (env : Env) (os : World) :
    reachable w ->
    reachable (snd (result (Close env w os))).

End WriteEntry.

End Journal.

(** ** The export format as the spec words it *)

Module Wire.

(** A field of the export format: its name and its value. *)
Definition Field : Type := (string * string)%type.

(** The plain form of a field, [name=value] and a newline. *)
Definition plain (f : Field) : list byte :=
  bytes (fst f) ++ [EQ] ++ bytes (snd f) ++ [LF].

(** A field can be read back from the plain form when its name holds
    neither [=] nor a newline and its value holds no newline. *)
Definition readable (f : Field) : Prop :=
  ContainsRune (fst f) "="%char = false
  /\ ContainsRune (fst f) newline = false
  /\ ContainsRune (snd f) newline = false.

Section Fields.

Variable unicodeToUpper : string -> string.

(** The fields of an entry in the order the spec fixes: [PRIORITY],
    [MESSAGE], the caller's pairs in their order under uppercased names,
    [JSON]. *)
Definition fields (t : dot) (raw : list byte) : list Field :=
  [("PRIORITY", Encoder.priority (dLevel t)); ("MESSAGE", Message t)]
  ++ map (fun kv => (Strings.ToUpper unicodeToUpper (Key kv), Value kv))
         (KeyValues t)
  ++ [("JSON", b2s raw)].

End Fields.

(** Reading the plain form back.  [lines cur l] cuts [l] at every
    newline, [cur] holding the bytes of the current line in reverse; a
    last line without its newline is kept. *)
Fixpoint lines (cur : list byte) (l : list byte) : list (list byte) :=
  match l with
  | [] => match cur with [] => [] | _ => [rev cur] end
  | c :: r =>
      if Byte.eqb c LF then rev cur :: lines [] r else lines (c :: cur) r
  end.

(** [cut line] splits a line at its first [=]; a line without one is a
    name with an empty value. *)
Fixpoint cut (line : list byte) : list byte * list byte :=
  match line with
  | [] => ([], [])
  | c :: r =>
      if Byte.eqb c EQ then ([], r)
      else let '(n, v) := cut r in (c :: n, v)
  end.

Definition parsePlain (l : list byte) : list Field :=
  map (fun line => let '(n, v) := cut line in (b2s n, b2s v)) (lines [] l).

End Wire.

(** ** The encoding as the spec words it *)

Module Spec.

(** A field as the spec has it: a name and the bytes of its value. *)
Definition Field : Type := (string * list byte)%type.

(** The digit of a level on the syslog scale. *)
Definition digit (l : Level) : string :=
  match l with
  | TraceLevel | DebugLevel => "7"
  | InfoLevel => "6"
  | WarnLevel => "4"
  | ErrorLevel => "3"
  | FatalLevel => "2"
  | PanicLevel => "0"
  | OtherLevel _ => "5"
  end.

(** The small letters and their capitals, position by position. *)
Definition smallLetters : string := "abcdefghijklmnopqrstuvwxyz".
Definition capitalLetters : string := "ABCDEFGHIJKLMNOPQRSTUVWXYZ".

(** [replace from to c]: the character of [to] at the position [c] has in
    [from]; [c] itself when it is not in [from]. *)
Fixpoint replace (from to : string) (c : ascii) : ascii :=
  match from, to with
  | String a from', String b to' =>
      if Ascii.eqb c a then b else replace from' to' c
  | _, _ => c
  end.

(** The capital of a small letter; any other character is its own. *)
Definition capital (c : ascii) : ascii :=
  replace smallLetters capitalLetters c.

(** A name uppercased: letter by letter when all its bytes are ASCII; by
    the Unicode mapping otherwise. *)
Definition uppercased (unicodeToUpper : string -> string) (name : string)
  : string :=
  if forallb (fun c => (nat_of_ascii c <? 128)%nat) (list_ascii_of_string name)
  then string_of_list_ascii (map capital (list_ascii_of_string name))
  else unicodeToUpper name.

(** [n] as [k] bytes, the least significant first. *)
Fixpoint littleEndian (k : nat) (n : Z) : list byte :=
  match k with
  | O => []
  | S k =>
      match Byte.of_N (Z.to_N (n mod 256)) with
      | Some b => b :: littleEndian k (n / 256)
      | None => []
      end
  end.

(** The two forms of a field (section 4.1 of the spec): [name=value] and
    a newline for a value without newline; else the name, a newline, the
    byte length of the value as eight little-endian bytes, the value and
    a newline. *)
Definition render (f : Field) : list byte :=
  if existsb (Byte.eqb x0a) (snd f) then
    (list_byte_of_string (fst f) ++ [x0a]
     ++ littleEndian 8 (Z.of_nat (List.length (snd f)))
     ++ snd f ++ [x0a])%list
  else
    (list_byte_of_string (fst f) ++ [x3d] ++ snd f ++ [x0a])%list.

End Spec.

(** ** Sample data *)

Module Samples.

Import Journal.

Definition nl : string := String newline EmptyString.
Definition dq : string := String "034"%char EmptyString.

(** The raw record [{"a":1}] of the spec's scenario. *)
Definition rawA1 : list byte := bytes ("{" ++ dq ++ "a" ++ dq ++ ":1}").

(** Its decoded entry: level info, message [hello], one pair. *)
Definition helloDot : dot :=
  {| dLevel := InfoLevel; Message := "hello";
     KeyValues := [ {| Key := "user"; Value := "alice" |} ] |}.

Definition helloWire : list byte :=
  bytes ("PRIORITY=6" ++ nl ++ "MESSAGE=hello" ++ nl ++ "USER=alice" ++ nl
         ++ "JSON={" ++ dq ++ "a" ++ dq ++ ":1}" ++ nl).

(** A message of two lines. *)
Definition twoLines : string := "line1" ++ nl ++ "line2".

(** An entry whose one key holds an equals sign. *)
Definition eqKeyDot : dot :=
  {| dLevel := InfoLevel; Message := "hello";
     KeyValues := [ {| Key := "a=b"; Value := "c" |} ] |}.

(** A raw record and the entry a decoder makes of it; the sample decoder
    knows this one record and rejects every other input. *)
Definition helloJSON : string :=
  "{" ++ dq ++ "level" ++ dq ++ ":" ++ dq ++ "info" ++ dq ++ ","
  ++ dq ++ "message" ++ dq ++ ":" ++ dq ++ "hello" ++ dq ++ ","
  ++ dq ++ "user" ++ dq ++ ":" ++ dq ++ "alice" ++ dq ++ "}".

Definition helloEntry : Entry := {| buf := bytes helloJSON |}.

Definition badEntry : Entry := {| buf := bytes "{" |}.

Definition decodeHello (b : list byte) : dot + error :=
  if String.eqb (b2s b) helloJSON then inl helloDot
  else inr (ErrorString "invalid json").

(** No Unicode mapping is needed for ASCII keys. *)
Definition noUnicode (s : string) : string := s.

Definition os0 : World := {| open_files := [] |}.

Definition autobind : UnixAddr := {| Name := ""; Net := "unixgram" |}.

Definition shmFile : File :=
  {| Fd := 7; FileName := "/dev/shm/journal.XXXXX012345" |}.

(** A platform on which every call succeeds. *)
Definition okEnv : Env :=
  {| ResolveUnixAddr := fun _ _ => inl autobind;
     ListenUnixgram := fun _ la => inl {| laddr := la; closed := false |};
     sendmsg := fun b _ _ => (Z.of_nat (List.length b), None);
     TempFile := fun _ _ => inl shmFile;
     Unlink := fun _ => None;
     write := fun _ b => (Z.of_nat (List.length b), None);
     close := fun _ => None |}.

Definition tooLarge : error :=
  OpError "write" (Some (SyscallError "sendmsg" (Some (Errno EMSGSIZE)))).

Definition refused : error :=
  OpError "write" (Some (SyscallError "sendmsg" (Some (Errno 111)))).

Definition bindFailed : error :=
  OpError "listen" (Some (SyscallError "bind" (Some (Errno 13)))).

(** A platform whose datagrams are too small for any payload: a send
    with payload bytes fails with [EMSGSIZE], a send of none succeeds. *)
Definition smallEnv : Env :=
  {| ResolveUnixAddr := ResolveUnixAddr okEnv;
     ListenUnixgram := ListenUnixgram okEnv;
     sendmsg := fun b _ _ =>
       match b with
       | [] => (0, None)
       | _ :: _ => (0, Some tooLarge)
       end;
     TempFile := TempFile okEnv;
     Unlink := Unlink okEnv;
     write := write okEnv;
     close := close okEnv |}.

(** The same platform refusing to unlink. *)
Definition smallNoUnlinkEnv : Env :=
  {| ResolveUnixAddr := ResolveUnixAddr okEnv;
     ListenUnixgram := ListenUnixgram okEnv;
     sendmsg := sendmsg smallEnv;
     TempFile := TempFile okEnv;
     Unlink := fun _ => Some (Errno 13);
     write := write okEnv;
     close := close okEnv |}.

(** A platform on which nobody listens at the destination. *)
Definition refusedEnv : Env :=
  {| ResolveUnixAddr := ResolveUnixAddr okEnv;
     ListenUnixgram := ListenUnixgram okEnv;
     sendmsg := fun _ _ _ => (0, Some refused);
     TempFile := TempFile okEnv;
     Unlink := Unlink okEnv;
     write := write okEnv;
     close := close okEnv |}.

(** A platform on which the local endpoint cannot be bound. *)
Definition noBindEnv : Env :=
  {| ResolveUnixAddr := ResolveUnixAddr okEnv;
     ListenUnixgram := fun _ _ => inr bindFailed;
     sendmsg := sendmsg okEnv;
     TempFile := TempFile okEnv;
     Unlink := Unlink okEnv;
     write := write okEnv;
     close := close okEnv |}.

(** A writer whose endpoint is set up, after one successful call. *)
Definition readyWriter : JournalWriter :=
  writerOf (result
    (WriteEntry noUnicode decodeHello okEnv (newWriter "") helloEntry os0)).

(** A writer whose setup failed at the bind, after one call. *)
Definition failedWriter : JournalWriter :=
  writerOf (result
    (WriteEntry noUnicode decodeHello noBindEnv (newWriter "") helloEntry os0)).

Definition journalAddr : option UnixAddr :=
  Some {| Name := "/run/systemd/journal/socket"; Net := "unixgram" |}.

End Samples.

(** ** The returns of WriteEntry, one by one *)

Module Paths.

Import Journal.

(** The two kinds of calls a run is sorted by. *)
Definition isSetup (ev : Event) : bool :=
  match ev with
  | EvResolveUnixAddr _ _ | EvListenUnixgram _ _ => true
  | _ => false
  end.

Definition isPool (ev : Event) : bool :=
  match ev with
  | EvPoolGet | EvPoolPut => true
  | _ => false
  end.

(** The destination the setup stores (lines 39-45). *)
Definition destination (w : JournalWriter) : UnixAddr :=
  {| Name := if String.eqb (JournalSocket w) ""
             then "/run/systemd/journal/socket" else JournalSocket w;
     Net := "unixgram" |}.

Section Returns.

Variable unicodeToUpper : string -> string.
Variable jsonToDot : list byte -> dot + error.

(** When the direct send of entry [e], decoded as [t], fails on the
    connection [c] of the ready writer [w1] with a size limit as its
    cause, leaving the count [n0]: the condition under which line 131 is
    reached. *)
Definition Oversized (env : Env) (w w1 : JournalWriter) (e : Entry)
    (os : World) (c : UnixConn) (t : dot) (n0 : Z) (cause : error) : Prop :=
  result (onceDo env w os) = (None, w1)
  /\ conn w1 = Some c /\ closed c = false
  /\ jsonToDot (buf e) = inl t
  /\ sendmsg env (Encoder.encodeEntry unicodeToUpper t (buf e)) [] (addr w1)
     = (n0, Some cause)
  /\ SizeLimit cause.

(** The ways out of [WriteEntry]: its [return] statements and the panic
    of line 113, each with the condition under which it is reached and
    what the call has then returned, left of the world, and called.
    [Returns env w e os r] reads: the call [w.WriteEntry(e)] on platform
    [env] in world [os] ends as [r]. *)
Inductive Returns (env : Env) (w : JournalWriter) (e : Entry) (os : World)
  : Outcome (Z * option error) * JournalWriter * World * list Event -> Prop :=
| return_setup (w1 : JournalWriter) (err : error) :
    (* line 56 *)
    result (onceDo env w os) = (Some err, w1) ->
    Returns env w e os
      (Returned (0, Some err), w1, os, events (onceDo env w os))
| return_decode (w1 : JournalWriter) (derr : error) :
    (* line 62 *)
    result (onceDo env w os) = (None, w1) ->
    jsonToDot (buf e) = inr derr ->
    Returns env w e os
      (Returned (0, Some derr), w1, os, events (onceDo env w os))
| return_direct (w1 : JournalWriter) (t : dot) (n0 : Z) (err0 : option error) :
    (* lines 115, 120, 125, 128 *)
    result (onceDo env w os) = (None, w1) ->
    jsonToDot (buf e) = inl t ->
    result (WriteMsgUnix env (conn w1)
              (Encoder.encodeEntry unicodeToUpper t (buf e)) [] (addr w1) os)
    = Returned (n0, err0) ->
    (forall cause, err0 = Some cause -> ~ SizeLimit cause) ->
    Returns env w e os
      (Returned (n0, err0), w1, os,
       (events (onceDo env w os)
        ++ EvPoolGet
           :: events (WriteMsgUnix env (conn w1)
                        (Encoder.encodeEntry unicodeToUpper t (buf e)) []
                        (addr w1) os)
        ++ [EvPoolPut])%list)
| panic_direct (w1 : JournalWriter) (t : dot) :
    (* line 113, on a nil connection *)
    result (onceDo env w os) = (None, w1) ->
    jsonToDot (buf e) = inl t ->
    conn w1 = None ->
    Returns env w e os
      (Panicked nilDereference, w1, os,
       (events (onceDo env w os) ++ [EvPoolGet; EvPoolPut])%list)
| return_tempfile (w1 : JournalWriter) (c : UnixConn) (t : dot) (n0 : Z)
    (cause terr : error) :
    (* line 135 *)
    Oversized env w w1 e os c t n0 cause ->
    TempFile env "/dev/shm/" "journal.XXXXX" = inr terr ->
    Returns env w e os
      (Returned (n0, Some terr), w1, os,
       (events (onceDo env w os)
        ++ [EvPoolGet;
            EvWriteMsgUnix (Encoder.encodeEntry unicodeToUpper t (buf e)) []
              (addr w1);
            EvTempFile "/dev/shm/" "journal.XXXXX";
            EvPoolPut])%list)
| return_unlink (w1 : JournalWriter) (c : UnixConn) (t : dot) (n0 : Z)
    (cause : error) (f : File) (uerr : error) :
    (* line 139 *)
    Oversized env w w1 e os c t n0 cause ->
    TempFile env "/dev/shm/" "journal.XXXXX" = inl f ->
    Unlink env (FileName f) = Some uerr ->
    Returns env w e os
      (Returned (n0, Some uerr), w1,
       {| open_files := Fd f :: open_files os |},
       (events (onceDo env w os)
        ++ [EvPoolGet;
            EvWriteMsgUnix (Encoder.encodeEntry unicodeToUpper t (buf e)) []
              (addr w1);
            EvTempFile "/dev/shm/" "journal.XXXXX";
            EvUnlink (FileName f);
            EvPoolPut])%list)
| return_write (w1 : JournalWriter) (c : UnixConn) (t : dot) (n0 : Z)
    (cause : error) (f : File) (n1 : Z) (werr : error) :
    (* line 144 *)
    Oversized env w w1 e os c t n0 cause ->
    TempFile env "/dev/shm/" "journal.XXXXX" = inl f ->
    Unlink env (FileName f) = None ->
    write env (Fd f) (Encoder.encodeEntry unicodeToUpper t (buf e))
    = (n1, Some werr) ->
    Returns env w e os
      (Returned (n1, Some werr), w1,
       {| open_files :=
            filter (fun d => negb (d =? Fd f)) (Fd f :: open_files os) |},
       (events (onceDo env w os)
        ++ [EvPoolGet;
            EvWriteMsgUnix (Encoder.encodeEntry unicodeToUpper t (buf e)) []
              (addr w1);
            EvTempFile "/dev/shm/" "journal.XXXXX";
            EvUnlink (FileName f);
            EvFileWrite (Fd f) (Encoder.encodeEntry unicodeToUpper t (buf e));
            EvFileClose (Fd f);
            EvPoolPut])%list)
| return_end (w1 : JournalWriter) (c : UnixConn) (t : dot) (n0 : Z)
    (cause : error) (f : File) (n1 n2 : Z) (serr : option error) :
    (* line 152 *)
    Oversized env w w1 e os c t n0 cause ->
    TempFile env "/dev/shm/" "journal.XXXXX" = inl f ->
    Unlink env (FileName f) = None ->
    write env (Fd f) (Encoder.encodeEntry unicodeToUpper t (buf e))
    = (n1, None) ->
    sendmsg env [] [Fd f] (addr w1) = (n2, serr) ->
    Returns env w e os
      (Returned
         ((if isNil serr then Z.of_nat (List.length (buf e)) else n1), serr),
       w1,
       {| open_files :=
            filter (fun d => negb (d =? Fd f)) (Fd f :: open_files os) |},
       (events (onceDo env w os)
        ++ [EvPoolGet;
            EvWriteMsgUnix (Encoder.encodeEntry unicodeToUpper t (buf e)) []
              (addr w1);
            EvTempFile "/dev/shm/" "journal.XXXXX";
            EvUnlink (FileName f);
            EvFileWrite (Fd f) (Encoder.encodeEntry unicodeToUpper t (buf e));
            EvWriteMsgUnix [] [Fd f] (addr w1);
            EvFileClose (Fd f);
            EvPoolPut])%list).

End Returns.

End Paths.

(** ** A reader of the export format *)

Module Reader.

Import Wire.

(** The bytes ahead of the first [=] or newline, that separator and what
    follows it. *)
Fixpoint untilSep (l : list byte)
  : list byte * option (byte * list byte) :=
  match l with
  | [] => ([], None)
  | c :: r =>
      if Byte.eqb c EQ || Byte.eqb c LF then ([], Some (c, r))
      else let '(n, k) := untilSep r in (c :: n, k)
  end.

(** The bytes ahead of the first newline and what follows it. *)
Fixpoint untilLF (l : list byte) : list byte * option (list byte) :=
  match l with
  | [] => ([], None)
  | c :: r =>
      if Byte.eqb c LF then ([], Some r)
      else let '(v, k) := untilLF r in (c :: v, k)
  end.

(** Field by field: a name closed by [=] has its value up to the next
    newline; a name closed by a newline has eight bytes of length, that
    many bytes of value and a newline.  [fuel] bounds the number of
    fields. *)
Fixpoint readFields (fuel : nat) (l : list byte) : option (list Field) :=
  match l with
  | [] => Some []
  | _ :: _ =>
      match fuel with
      | O => None
      | S fuel =>
          match untilSep l with
          | (n, Some (sep, r)) =>
              if Byte.eqb sep EQ then
                match untilLF r with
                | (v, Some r') =>
                    option_map (cons (b2s n, b2s v)) (readFields fuel r')
                | (_, None) => None
                end
              else
                if (List.length r <? 8)%nat then None
                else
                  let size := Z.to_nat (Uint64 (firstn 8 r)) in
                  let v := firstn size (skipn 8 r) in
                  match skipn size (skipn 8 r) with
                  | c :: r' =>
                      if Byte.eqb c LF && (List.length v =? size)%nat then
                        option_map (cons (b2s n, b2s v)) (readFields fuel r')
                      else None
                  | [] => None
                  end
          | (_, None) => None
          end
      end
  end.

(** Every field takes at least one byte, so the length is fuel enough. *)
Definition readExport (l : list byte) : option (list Field) :=
  readFields (List.length l) l.

(** A name the format can carry: no [=], no newline. *)
Definition nameOK (name : string) : Prop :=
  ContainsRune name "="%char = false /\ ContainsRune name newline = false.

End Reader.

(** ** More sample data *)

Module MoreSamples.

Import Journal Samples.

(** An entry whose message has two lines. *)
Definition twoLinesDot : dot :=
  {| dLevel := ErrorLevel; Message := twoLines;
     KeyValues := [ {| Key := "user"; Value := "alice" |} ] |}.

(** The small-datagram platform on which the send of the descriptor is
    refused. *)
Definition smallRefusedEnv : Env :=
  {| ResolveUnixAddr := ResolveUnixAddr okEnv;
     ListenUnixgram := ListenUnixgram okEnv;
     sendmsg := fun b _ _ =>
       match b with
       | [] => (0, Some refused)
       | _ :: _ => (0, Some tooLarge)
       end;
     TempFile := TempFile okEnv;
     Unlink := Unlink okEnv;
     write := write okEnv;
     close := close okEnv |}.

Definition openConn : UnixConn := {| laddr := autobind; closed := false |}.

End MoreSamples.

(** ** Facts about bytes *)

Module BytesFacts.

Lemma Z_of_byte_of_Z (v : Z) : Z_of_byte (byte_of_Z v) = v mod 256.
Proof.
  unfold Z_of_byte, byte_of_Z.
  change 255 with (Z.ones 8). rewrite Z.land_ones by lia.
  change (2 ^ 8) with 256.
  pose proof (Z.mod_pos_bound v 256 ltac:(lia)) as Hb.
  destruct (Byte.of_N (Z.to_N (v mod 256))) as [b|] eqn:E.
  - apply Byte.to_of_N in E. rewrite E. lia.
  - apply Byte.of_N_None_iff in E. lia.
Qed.

Lemma mod_256 (q : Z) : q mod 256 = q - 256 * (q / 256).
Proof. pose proof (Z.div_mod q 256 ltac:(lia)). lia. Qed.

Lemma shiftr_8 (v k : Z) :
  0 <= k -> Z.shiftr v (k + 8) = Z.shiftr v k / 256.
Proof.
  intros Hk. rewrite <- Z.shiftr_shiftr by lia.
  rewrite (Z.shiftr_div_pow2 _ 8) by lia. reflexivity.
Qed.

(** Reading back the eight bytes of [PutUint64] gives the value modulo
    2^64. *)
Lemma Uint64_PutUint64 (v : Z) : Uint64 (PutUint64 v) = v mod 2 ^ 64.
Proof.
  unfold PutUint64, Uint64. rewrite !Z_of_byte_of_Z.
  change 56 with (48 + 8). rewrite (shiftr_8 v 48) by lia.
  change 48 with (40 + 8). rewrite (shiftr_8 v 40) by lia.
  change 40 with (32 + 8). rewrite (shiftr_8 v 32) by lia.
  change 32 with (24 + 8). rewrite (shiftr_8 v 24) by lia.
  change 24 with (16 + 8). rewrite (shiftr_8 v 16) by lia.
  change 16 with (8 + 8). rewrite (shiftr_8 v 8) by lia.
  change 8 with (0 + 8) at 1 2 3 4 5 6 7. rewrite (shiftr_8 v 0) by lia.
  rewrite Z.shiftr_0_r.
  set (q1 := v / 256). set (q2 := q1 / 256). set (q3 := q2 / 256).
  set (q4 := q3 / 256). set (q5 := q4 / 256). set (q6 := q5 / 256).
  set (q7 := q6 / 256).
  assert (H8 : v / 2 ^ 64 = q7 / 256).
  { unfold q7, q6, q5, q4, q3, q2, q1.
    rewrite !Z.div_div by lia. reflexivity. }
  pose proof (Z.div_mod v (2 ^ 64) ltac:(lia)) as Hv. rewrite H8 in Hv.
  rewrite (mod_256 v), (mod_256 q1), (mod_256 q2), (mod_256 q3),
    (mod_256 q4), (mod_256 q5), (mod_256 q6), (mod_256 q7).
  fold q1 q2 q3 q4 q5 q6 q7.
  change (2 ^ 64) with 18446744073709551616 in *. lia.
Qed.

Lemma bytes_cons (c : ascii) (s : string) :
  bytes (String c s) = byte_of_ascii c :: bytes s.
Proof. reflexivity. Qed.

Lemma byte_of_ascii_inj (a b : ascii) :
  byte_of_ascii a = byte_of_ascii b -> a = b.
Proof.
  intros H. rewrite <- (ascii_of_byte_of_ascii a), H.
  apply ascii_of_byte_of_ascii.
Qed.

(** [ContainsRune] finds the byte of an ASCII character exactly when the
    byte occurs. *)
Lemma ContainsRune_In (s : string) (r : ascii) :
  ContainsRune s r = true <-> In (byte_of_ascii r) (bytes s).
Proof.
  induction s as [|c s IH].
  - simpl. split; [discriminate | tauto].
  - rewrite bytes_cons. cbn [ContainsRune In].
    destruct (Ascii.eqb c r) eqn:E.
    + apply Ascii.eqb_eq in E. subst. tauto.
    + apply Ascii.eqb_neq in E. rewrite IH. split; [tauto|].
      intros [H|H]; [|exact H]. apply byte_of_ascii_inj in H. contradiction.
Qed.

Lemma ContainsRune_false (s : string) (r : ascii) :
  ContainsRune s r = false <-> ~ In (byte_of_ascii r) (bytes s).
Proof.
  rewrite <- ContainsRune_In. destruct (ContainsRune s r); split; congruence.
Qed.

Lemma b2s_bytes (s : string) : b2s (bytes s) = s.
Proof. apply string_of_list_byte_of_string. Qed.

Lemma length_bytes (s : string) : List.length (bytes s) = String.length s.
Proof.
  induction s as [|c s IH]; [reflexivity|].
  rewrite bytes_cons. simpl. now rewrite IH.
Qed.

End BytesFacts.

(** ** The field encoder *)

Module EncoderFacts.

Import BytesFacts Encoder Wire.

(** [print] only appends: what it writes does not depend on what the
    buffer holds. *)
Lemma print_app (w : list byte) (name value : string) :
  print w name value = (w ++ print [] name value)%list.
Proof.
  unfold print, Fprintln, binaryWrite, Fprintf.
  destruct (ContainsRune value newline); simpl;
    repeat rewrite <- app_assoc; reflexivity.
Qed.

Lemma print_plain (name value : string) :
  ContainsRune value newline = false ->
  print [] name value = plain (name, value).
Proof. intros H. unfold print, plain, Fprintf. now rewrite H. Qed.

Section Encode.

Variable unicodeToUpper : string -> string.

Let upper := Strings.ToUpper unicodeToUpper.

Lemma fold_print (kvs : list KeyValue) (b : list byte) :
  fold_left (fun b kv => print b (upper (Key kv)) (Value kv)) kvs b
  = (b ++ flat_map (fun f => print [] (fst f) (snd f))
            (map (fun kv => (upper (Key kv), Value kv)) kvs))%list.
Proof.
  revert b. induction kvs as [|kv kvs IH]; intros b; simpl.
  - now rewrite app_nil_r.
  - rewrite IH, (print_app b), <- app_assoc. reflexivity.
Qed.

(** The buffer after the four steps is the concatenation of what [print]
    writes for each field of [fields], in that order. *)
Lemma encodeEntry_flat_map (t : dot) (raw : list byte) :
  encodeEntry unicodeToUpper t raw
  = flat_map (fun f => print [] (fst f) (snd f)) (fields unicodeToUpper t raw).
Proof.
  unfold encodeEntry, fields. fold upper.
  rewrite print_app, fold_print, (print_app (print _ _ _)).
  rewrite !flat_map_app. simpl. rewrite !app_nil_r, <- !app_assoc.
  reflexivity.
Qed.

End Encode.

(** *** Reading the plain form back *)

Lemma lines_line (line rest cur : list byte) :
  ~ In LF line ->
  lines cur (line ++ LF :: rest) = (rev cur ++ line)%list :: lines [] rest.
Proof.
  revert cur. induction line as [|c line IH]; intros cur Hno; simpl.
  - now rewrite app_nil_r.
  - destruct (Byte.eqb c LF) eqn:E.
    + apply Byte.byte_dec_bl in E. subst. simpl in Hno. tauto.
    + rewrite IH by (simpl in Hno; tauto). simpl.
      now rewrite <- app_assoc.
Qed.

Lemma cut_name (n v : list byte) :
  ~ In EQ n -> cut (n ++ EQ :: v) = (n, v).
Proof.
  induction n as [|c n IH]; intros Hno; simpl.
  - reflexivity.
  - destruct (Byte.eqb c EQ) eqn:E.
    + apply Byte.byte_dec_bl in E. subst. simpl in Hno. tauto.
    + rewrite IH by (simpl in Hno; tauto). reflexivity.
Qed.

Lemma parsePlain_plain (fs : list Field) :
  Forall readable fs -> parsePlain (flat_map plain fs) = fs.
Proof.
  unfold parsePlain.
  induction 1 as [|[n v] fs [Heq [Hnl Hv]] _ IH]; [reflexivity|].
  apply ContainsRune_false in Heq, Hnl, Hv. simpl in Heq, Hnl, Hv.
  change (byte_of_ascii "="%char) with EQ in Heq.
  change (byte_of_ascii newline) with LF in Hnl, Hv.
  cbn [flat_map]. unfold plain at 1. cbn [fst snd].
  replace ((bytes n ++ [EQ] ++ bytes v ++ [LF]) ++ flat_map plain fs)%list
    with ((bytes n ++ EQ :: bytes v) ++ LF :: flat_map plain fs)%list
    by (rewrite <- ?app_assoc; simpl; rewrite <- ?app_assoc; reflexivity).
  rewrite lines_line.
  - cbn [map rev app]. rewrite IH, cut_name by exact Heq.
    now rewrite !b2s_bytes.
  - rewrite in_app_iff. simpl. intros [H|[H|H]]; [tauto | discriminate | tauto].
Qed.

End EncoderFacts.

(** ** The code's encoding and the spec's *)

Module SpecFacts.

Import BytesFacts Encoder.

Lemma capital_upperASCII (c : ascii) : Spec.capital c = Strings.upperASCII c.
Proof. destruct c as [[] [] [] [] [] [] [] []]; reflexivity. Qed.

Lemma below_128 (c : ascii) :
  (nat_of_ascii c <? 128)%nat = (N_of_ascii c <? 128)%N.
Proof. destruct c as [[] [] [] [] [] [] [] []]; reflexivity. Qed.

Lemma uppercased_ToUpper (up : string -> string) (k : string) :
  Spec.uppercased up k = Strings.ToUpper up k.
Proof.
  unfold Spec.uppercased, Strings.ToUpper.
  assert (Ha : forallb (fun c => (nat_of_ascii c <? 128)%nat)
                 (list_ascii_of_string k) = Strings.isASCII k).
  { induction k as [|c k IH]; [reflexivity|].
    cbn [list_ascii_of_string forallb Strings.isASCII].
    rewrite below_128, IH. destruct (N_of_ascii c <? 128)%N; reflexivity. }
  rewrite Ha. destruct (Strings.isASCII k); [|reflexivity]. clear Ha.
  induction k as [|c k IH]; [reflexivity|].
  cbn [list_ascii_of_string map string_of_list_ascii Strings.Map].
  now rewrite capital_upperASCII, IH.
Qed.

Lemma newline_found (v : string) :
  existsb (Byte.eqb x0a) (bytes v) = ContainsRune v newline.
Proof.
  induction v as [|c v IH]; [reflexivity|].
  rewrite bytes_cons. cbn [existsb ContainsRune]. rewrite IH.
  destruct c as [[] [] [] [] [] [] [] []]; reflexivity.
Qed.

Lemma littleEndian_cons (k : nat) (n : Z) :
  Spec.littleEndian (S k) n = byte_of_Z n :: Spec.littleEndian k (n / 256).
Proof.
  cbn [Spec.littleEndian]. unfold byte_of_Z.
  change 255 with (Z.ones 8). rewrite Z.land_ones by lia.
  change (2 ^ 8) with 256.
  pose proof (Z.mod_pos_bound n 256 ltac:(lia)) as Hb.
  destruct (Byte.of_N (Z.to_N (n mod 256))) as [b|] eqn:E; [reflexivity|].
  apply Byte.of_N_None_iff in E. lia.
Qed.

(** The byte at a shift of the wrapped value is the byte of the quotient:
    the wrap-around modulo 2^64 touches no bit below 64. *)
Lemma byte_of_shift (n k : Z) :
  0 <= k <= 56 ->
  byte_of_Z (Z.shiftr (n mod 2 ^ 64) k) = byte_of_Z (n / 2 ^ k).
Proof.
  intros Hk. unfold byte_of_Z.
  replace (Z.land (Z.shiftr (n mod 2 ^ 64) k) 255)
    with (Z.land (n / 2 ^ k) 255); [reflexivity|].
  change 255 with (Z.ones 8). rewrite !Z.land_ones by lia.
  apply Z.bits_inj'. intros i Hi.
  destruct (Z_lt_dec i 8) as [Hlow|Hhigh].
  - rewrite !Z.mod_pow2_bits_low by lia.
    rewrite Z.shiftr_spec, Z.div_pow2_bits by lia.
    rewrite Z.mod_pow2_bits_low by lia. reflexivity.
  - rewrite !Z.mod_pow2_bits_high by lia. reflexivity.
Qed.

Lemma littleEndian_PutUint64 (n : Z) :
  Spec.littleEndian 8 n = PutUint64 (uint64 n).
Proof.
  rewrite !littleEndian_cons. cbn [Spec.littleEndian].
  unfold PutUint64, uint64. rewrite !Z.div_div by lia.
  rewrite <- (Z.shiftr_0_r (n mod 2 ^ 64)) at 1.
  rewrite !byte_of_shift by lia.
  rewrite Z.div_1_r. reflexivity.
Qed.

(** What [print] writes for a field is the spec's form of it. *)
Lemma print_render (name value : string) :
  print [] name value = Spec.render (name, bytes value).
Proof.
  unfold print, Spec.render, Fprintln, binaryWrite, Fprintf. cbn [fst snd].
  rewrite newline_found.
  destruct (ContainsRune value newline).
  - rewrite littleEndian_PutUint64, length_bytes.
    cbn [app]. rewrite <- !app_assoc. reflexivity.
  - reflexivity.
Qed.

End SpecFacts.

(** ** The encoder's contract *)

Section EncoderContract.

Import BytesFacts Encoder Wire EncoderFacts.

Variable unicodeToUpper : string -> string.

(** C4: for a value that holds a newline [print] writes the name and a
    newline, eight bytes that read back (little-endian) as exactly the
    byte length of the value, the value and a newline; for a value that
    holds none it writes [name=value] and a newline.  The length of a Go
    string fits in 64 bits, which is the hypothesis. *)
Theorem print_two_forms (w : list byte) (name value : string) :
  len value < 2 ^ 64 ->
  (In LF (bytes value) ->
   exists L : list byte,
     List.length L = 8%nat /\ Uint64 L = len value /\
     print w name value
     = (w ++ bytes name ++ [LF] ++ L ++ bytes value ++ [LF])%list)
  /\ (~ In LF (bytes value) ->
      print w name value
      = (w ++ bytes name ++ [EQ] ++ bytes value ++ [LF])%list).
Proof.
  intros Hlen. split; intros Hin.
  - apply (ContainsRune_In value newline) in Hin.
    exists (PutUint64 (uint64 (len value))). split; [reflexivity|]. split.
    + rewrite Uint64_PutUint64. unfold uint64.
      rewrite Z.mod_mod by lia. apply Z.mod_small. unfold len in *. lia.
    + unfold print, Fprintln, binaryWrite. rewrite Hin.
      repeat rewrite <- app_assoc. reflexivity.
  - apply (ContainsRune_false value newline) in Hin.
    unfold print, Fprintf. now rewrite Hin.
Qed.

(** C5: the encoded entry is, byte for byte, the spec's form of the
    field [PRIORITY] with the digit of the level, then of [MESSAGE], then
    of one field per caller pair, in the record's order, under the key
    uppercased, then of [JSON] whose value is the raw record as it is.
    The forms, the digit and the uppercasing on the right are the spec's
    ([Spec.render], [Spec.digit], [Spec.uppercased]), not the code's. *)
Theorem encodeEntry_field_order (t : dot) (raw : list byte) :
  encodeEntry unicodeToUpper t raw
  = (Spec.render ("PRIORITY", list_byte_of_string (Spec.digit (dLevel t)))
     ++ Spec.render ("MESSAGE", list_byte_of_string (Message t))
     ++ flat_map
          (fun kv =>
             Spec.render (Spec.uppercased unicodeToUpper (Key kv),
                          list_byte_of_string (Value kv)))
          (KeyValues t)
     ++ Spec.render ("JSON", raw))%list.
Proof.
  rewrite encodeEntry_flat_map. unfold fields.
  cbn [app flat_map fst snd]. rewrite flat_map_app.
  cbn [flat_map fst snd]. rewrite app_nil_r.
  rewrite !SpecFacts.print_render.
  unfold b2s, bytes. rewrite list_byte_of_string_of_list_byte.
  apply f_equal2; [destruct (dLevel t); reflexivity|].
  apply f_equal2; [reflexivity|]. apply f_equal2; [|reflexivity].
  induction (KeyValues t) as [|kv kvs IH]; [reflexivity|].
  cbn [map flat_map fst snd].
  rewrite IH, SpecFacts.print_render, SpecFacts.uppercased_ToUpper.
  reflexivity.
Qed.

(** C6: the priority of each of the seven levels is the documented digit,
    any other level has priority 5, the priority is always one ASCII
    digit between 0 and 7, and it is the value of the [PRIORITY] field
    that opens the encoded entry. *)
Theorem priority_total_fixed :
  priority TraceLevel = "7" /\ priority DebugLevel = "7"
  /\ priority InfoLevel = "6" /\ priority WarnLevel = "4"
  /\ priority ErrorLevel = "3" /\ priority FatalLevel = "2"
  /\ priority PanicLevel = "0"
  /\ (forall v : Z, priority (OtherLevel v) = "5")
  /\ (forall l : Level, exists d : ascii,
        priority l = String d EmptyString
        /\ (N_of_ascii "0" <= N_of_ascii d <= N_of_ascii "7")%N)
  /\ (forall (t : dot) (raw : list byte), exists rest : list byte,
        encodeEntry unicodeToUpper t raw
        = (bytes "PRIORITY=" ++ bytes (priority (dLevel t)) ++ [LF] ++ rest)%list).
Proof.
  do 7 (split; [reflexivity|]). split; [intros v; reflexivity|]. split.
  - intros l. destruct l; simpl; eexists; (split; [reflexivity|]);
      simpl; lia.
  - intros t raw. rewrite encodeEntry_flat_map. unfold fields.
    cbn [app flat_map fst snd]. eexists.
    rewrite print_plain by (destruct (dLevel t); reflexivity).
    unfold plain. cbn [fst snd]. rewrite <- !app_assoc. reflexivity.
Qed.

(** C7: the entry of level info with message [hello], the pair
    [(user, alice)] and the raw record [{"a":1}] is encoded as the four
    lines [PRIORITY=6], [MESSAGE=hello], [USER=alice], [JSON={"a":1}],
    each closed by a newline. *)
Theorem encodeEntry_hello :
  encodeEntry unicodeToUpper Samples.helloDot Samples.rawA1 = Samples.helloWire.
Proof. vm_compute. reflexivity. Qed.

(** C8, as amended: when no emitted value holds a newline and no emitted
    name holds an equals sign or a newline, reading the encoded entry by
    the plain rule gives back the emitted fields in their order. *)
Theorem plain_roundtrip (t : dot) (raw : list byte) :
  Forall readable (fields unicodeToUpper t raw) ->
  parsePlain (encodeEntry unicodeToUpper t raw) = fields unicodeToUpper t raw.
Proof.
  intros H. rewrite encodeEntry_flat_map.
  rewrite <- (parsePlain_plain _ H) at 2. f_equal.
  induction H as [|[n v] fs [_ [_ Hv]] _ IH]; [reflexivity|].
  cbn [flat_map fst snd]. now rewrite IH, (print_plain n v Hv).
Qed.

End EncoderContract.

(** C4 at the two-line message of the spec's scenario: eight bytes that
    read as 11 stand between the name and the value. *)
Lemma print_two_forms_witness :
  (In LF (bytes Samples.twoLines) ->
   exists L : list byte,
     List.length L = 8%nat /\ Uint64 L = len Samples.twoLines /\
     Encoder.print [] "MESSAGE" Samples.twoLines
     = (bytes "MESSAGE" ++ [LF] ++ L ++ bytes Samples.twoLines ++ [LF])%list)
  /\ (~ In LF (bytes Samples.twoLines) ->
      Encoder.print [] "MESSAGE" Samples.twoLines
      = (bytes "MESSAGE" ++ [EQ] ++ bytes Samples.twoLines ++ [LF])%list).
Proof.
  apply (print_two_forms [] "MESSAGE" Samples.twoLines).
  vm_compute. reflexivity.
Defined.

(** C8 at the entry of the scenario. *)
Lemma plain_roundtrip_witness :
  Wire.parsePlain (Encoder.encodeEntry (fun s => s) Samples.helloDot Samples.rawA1)
  = Wire.fields (fun s => s) Samples.helloDot Samples.rawA1.
Proof.
  apply (plain_roundtrip (fun s => s) Samples.helloDot Samples.rawA1).
  repeat constructor.
Defined.

(** C8 as stated fails: the key [a=b] with value [c] is emitted as the
    field [A=B] with value [c], all values are single lines, and the plain
    rule reads the field [A] with value [B=c], whatever the Unicode
    mapping. *)
Lemma plain_roundtrip_counterexample :
  ~ exists up : string -> string,
      forall (t : dot) (raw : list byte),
        Forall (fun f => ContainsRune (snd f) newline = false)
               (Wire.fields up t raw) ->
        Wire.parsePlain (Encoder.encodeEntry up t raw) = Wire.fields up t raw.
Proof.
  intros [up H]. specialize (H Samples.eqKeyDot Samples.rawA1).
  assert (Hv : Forall (fun f => ContainsRune (snd f) newline = false)
                 (Wire.fields up Samples.eqKeyDot Samples.rawA1))
    by (repeat constructor).
  specialize (H Hv). vm_compute in H. discriminate H.
Qed.

(** ** Runs of the writer *)

Module JournalFacts.

Import Journal.

(** A recorded call comes first in the calls of what follows it. *)
Lemma events_emit {A : Type} (ev : Event) (k : M A) (os : World) :
  events (bind (emit ev) (fun _ => k) os) = ev :: events (k os).
Proof. unfold bind, emit, events. destruct (k os) as [[a s] l]. reflexivity. Qed.

(** The once-only setup opens and closes no file. *)
Lemma onceDo_world (env : Env) (w : JournalWriter) (os : World) :
  world (onceDo env w os) = os.
Proof.
  unfold onceDo, bind, emit, ret, world.
  destruct (once w); [reflexivity|].
  destruct (ResolveUnixAddr env _ _); simpl; [|reflexivity].
  destruct (ListenUnixgram env _ _); reflexivity.
Qed.

(** Its calls are the address resolution and the bind, when it runs. *)
Lemma onceDo_events (env : Env) (w : JournalWriter) (os : World) (ev : Event) :
  In ev (events (onceDo env w os)) ->
  (exists n a, ev = EvResolveUnixAddr n a)
  \/ (exists n la, ev = EvListenUnixgram n la).
Proof.
  unfold onceDo, bind, emit, ret, events.
  destruct (once w); [intros []|].
  destruct (ResolveUnixAddr env _ _); simpl.
  - destruct (ListenUnixgram env _ _); simpl;
      intros [<-|[<-|[]]]; eauto.
  - intros [<-|[]]; eauto.
Qed.

(** It leaves the flag set, and a connection only with the flag set. *)
Lemma onceDo_once (env : Env) (w : JournalWriter) (os : World) :
  once (snd (result (onceDo env w os))) = true.
Proof.
  unfold onceDo, bind, emit, ret, result.
  destruct (once w) eqn:E; [exact E|].
  destruct (ResolveUnixAddr env _ _); simpl; [|reflexivity].
  destruct (ListenUnixgram env _ _); reflexivity.
Qed.

Lemma onceDo_done (env : Env) (w : JournalWriter) (os : World) :
  once w = true -> onceDo env w os = (None, w, os, []).
Proof. unfold onceDo. now intros ->. Qed.

(** The fallback begins by asking for the temporary file. *)
Lemma fallback_first (env : Env) (w : JournalWriter) (e : Entry)
    (b : list byte) (n : Z) (os : World) :
  exists rest,
    events (fallback env w e b n os)
    = EvTempFile "/dev/shm/" "journal.XXXXX" :: rest.
Proof.
  unfold fallback. rewrite events_emit. eauto.
Qed.

(** A send that fails with a size limit as its cause hands over to the
    fallback, with the count of the send. *)
Lemma send_fallback (env : Env) (w : JournalWriter)
    (e : Entry) (b : list byte) (os : World) (c : UnixConn)
    (n0 : Z) (cause : error) :
  conn w = Some c -> closed c = false ->
  sendmsg env b [] (addr w) = (n0, Some cause) ->
  SizeLimit cause ->
  send env w e b os
  = (result (fallback env w e b n0 os), world (fallback env w e b n0 os),
     EvWriteMsgUnix b [] (addr w) :: events (fallback env w e b n0 os)).
Proof.
  intros Hc Hopen Hs (op & sc & code & -> & Hcode).
  unfold send, WriteMsgUnix, bind, emit, ret. rewrite Hc, Hopen, Hs. simpl.
  assert (Hb : neqErrno (Some (Errno code)) EMSGSIZE
               && neqErrno (Some (Errno code)) ENOBUFS = false)
    by (destruct Hcode as [-> | ->]; reflexivity).
  simpl in Hb. rewrite Hb.
  destruct (fallback env w e b n0 os) as [[r s] l]. reflexivity.
Qed.

(** A send changes no file and makes at most the one call. *)
Lemma WriteMsgUnix_run (env : Env) (c : option UnixConn) (b : list byte)
    (oob : list Z) (to : option UnixAddr) (os : World) :
  world (WriteMsgUnix env c b oob to os) = os
  /\ (events (WriteMsgUnix env c b oob to os) = []
      \/ events (WriteMsgUnix env c b oob to os) = [EvWriteMsgUnix b oob to]).
Proof.
  unfold WriteMsgUnix, bind, emit, ret, world, events.
  destruct c as [c|]; [destruct (closed c)|]; simpl; auto.
Qed.

(** [send] after a direct send that returned: back to the caller unless
    the cause is a size limit. *)
Lemma send_returns (env : Env) (w : JournalWriter) (e : Entry)
    (b : list byte) (os : World) (n0 : Z) (err0 : option error) :
  result (WriteMsgUnix env (conn w) b [] (addr w) os) = Returned (n0, err0) ->
  (forall cause, err0 = Some cause -> ~ SizeLimit cause) ->
  send env w e b os
  = (Returned (n0, err0), os,
     events (WriteMsgUnix env (conn w) b [] (addr w) os)).
Proof.
  intros Hs Hno.
  destruct (WriteMsgUnix_run env (conn w) b [] (addr w) os) as [Hw _].
  unfold send, bind.
  destruct (WriteMsgUnix env (conn w) b [] (addr w) os) as [[r s] l].
  unfold result, world, events in *. simpl in Hs, Hw. subst r s. simpl.
  unfold ret.
  destruct err0 as [cause|]; simpl; [|now rewrite app_nil_r].
  specialize (Hno cause eq_refl).
  destruct cause as [code|op [inner|]| |sc inner| |msg]; simpl;
    try now rewrite app_nil_r.
  destruct inner as [code|op' inner'| |sc [cause|]| |msg]; simpl;
    try now rewrite app_nil_r.
  destruct cause as [code|op' inner'| |sc' inner'| |msg]; simpl;
    try now rewrite app_nil_r.
  destruct (code =? EMSGSIZE) eqn:E1; simpl.
  - apply Z.eqb_eq in E1. exfalso. apply Hno. unfold SizeLimit. eauto 8.
  - destruct (code =? ENOBUFS) eqn:E2; simpl; [|now rewrite app_nil_r].
    apply Z.eqb_eq in E2. exfalso. apply Hno. unfold SizeLimit. eauto 8.
Qed.

Lemma send_falls_back (env : Env) (w : JournalWriter) (e : Entry)
    (b : list byte) (os : World) (n0 : Z) (cause : error) :
  result (WriteMsgUnix env (conn w) b [] (addr w) os)
  = Returned (n0, Some cause) ->
  SizeLimit cause ->
  send env w e b os
  = (result (fallback env w e b n0 os), world (fallback env w e b n0 os),
     (events (WriteMsgUnix env (conn w) b [] (addr w) os)
      ++ events (fallback env w e b n0 os))%list).
Proof.
  intros Hs (op & sc & code & -> & Hcode).
  destruct (WriteMsgUnix_run env (conn w) b [] (addr w) os) as [Hw _].
  unfold send, bind.
  destruct (WriteMsgUnix env (conn w) b [] (addr w) os) as [[r s] l].
  unfold result, world, events in *. simpl in Hs, Hw. subst r s. simpl.
  assert (Hb : neqErrno (Some (Errno code)) EMSGSIZE
               && neqErrno (Some (Errno code)) ENOBUFS = false)
    by (destruct Hcode as [-> | ->]; reflexivity).
  simpl in Hb. rewrite Hb.
  destruct (fallback env w e b n0 os) as [[r s] l']. reflexivity.
Qed.

(** A direct send on a nil connection panics; [send] does no more. *)
Lemma send_panics (env : Env) (w : JournalWriter) (e : Entry)
    (b : list byte) (os : World) :
  conn w = None ->
  send env w e b os = (Panicked nilDereference, os, []).
Proof.
  intros Hc. unfold send, WriteMsgUnix, bind, ret. rewrite Hc. reflexivity.
Qed.

(** A direct send returns unless the connection is nil. *)
Lemma WriteMsgUnix_outcome (env : Env) (c : option UnixConn) (b : list byte)
    (oob : list Z) (to : option UnixAddr) (os : World) :
  (c = None
   /\ result (WriteMsgUnix env c b oob to os) = Panicked nilDereference)
  \/ (exists n0 err0,
        c <> None
        /\ result (WriteMsgUnix env c b oob to os) = Returned (n0, err0)).
Proof.
  unfold WriteMsgUnix, bind, emit, ret, result.
  destruct c as [c|]; [right|left; auto].
  destruct (closed c); simpl.
  - eexists _, _. split; [discriminate | reflexivity].
  - destruct (sendmsg env b oob to) as [n0 err0].
    exists n0, err0. split; [discriminate | reflexivity].
Qed.

Lemma SizeLimit_dec (cause : error) : SizeLimit cause \/ ~ SizeLimit cause.
Proof.
  unfold SizeLimit.
  destruct cause as [code|op [inner|]| |sc inner| |msg];
    try (right; intros (? & ? & ? & H & _); discriminate H).
  destruct inner as [code|op' inner'| |sc [cause|]| |msg];
    try (right; intros (? & ? & ? & H & _); discriminate H).
  destruct cause as [code|op' inner'| |sc' inner'| |msg];
    try (right; intros (? & ? & ? & H & _); discriminate H).
  destruct (Z.eq_dec code EMSGSIZE) as [->|N1]; [left; eauto 8|].
  destruct (Z.eq_dec code ENOBUFS) as [->|N2]; [left; eauto 8|].
  right. intros (? & ? & ? & H & [E|E]); inversion H; subst; contradiction.
Qed.

(** The fallback when the unlink fails: the error of the unlink with the
    count it was given, the descriptor left open, no further call. *)
Lemma fallback_unlink_failed (env : Env) (w : JournalWriter) (e : Entry)
    (b : list byte) (n : Z) (os : World) (f : File) (uerr : error) :
  TempFile env "/dev/shm/" "journal.XXXXX" = inl f ->
  Unlink env (FileName f) = Some uerr ->
  fallback env w e b n os
  = (Returned (n, Some uerr), {| open_files := Fd f :: open_files os |},
     [EvTempFile "/dev/shm/" "journal.XXXXX"; EvUnlink (FileName f)]).
Proof.
  intros Ht Hu. unfold fallback, bind, emit, modify, ret.
  rewrite Ht, Hu. reflexivity.
Qed.

(** The fallback after the unlink: whatever the write and the second
    send answer, the last call closes the descriptor. *)
Lemma fallback_unlinked (env : Env) (w : JournalWriter) (e : Entry)
    (b : list byte) (n : Z) (os : World) (f : File) :
  TempFile env "/dev/shm/" "journal.XXXXX" = inl f ->
  Unlink env (FileName f) = None ->
  exists mid,
    events (fallback env w e b n os)
    = (EvTempFile "/dev/shm/" "journal.XXXXX" :: EvUnlink (FileName f)
       :: EvFileWrite (Fd f) b :: mid ++ [EvFileClose (Fd f)])%list
    /\ world (fallback env w e b n os)
       = {| open_files :=
              filter (fun d => negb (d =? Fd f)) (Fd f :: open_files os) |}.
Proof.
  intros Ht Hu.
  unfold fallback, defer, fileClose, bind, emit, modify, ret, events, world.
  rewrite Ht, Hu.
  destruct (write env (Fd f) b) as [n1 [werr|]].
  - exists []. split; reflexivity.
  - unfold WriteMsgUnix, bind, emit, ret.
    destruct (conn w) as [c|]; [destruct (closed c)|].
    + exists []. split; reflexivity.
    + destruct (sendmsg env [] [Fd f] (addr w)) as [n2 [serr|]];
        exists [EvWriteMsgUnix [] [Fd f] (addr w)]; split; reflexivity.
    + exists []. split; reflexivity.
Qed.

(** The fallback when every step succeeds. *)
Lemma fallback_ok (env : Env) (w : JournalWriter) (e : Entry)
    (b : list byte) (n n1 n2 : Z) (os : World) (f : File) (c : UnixConn) :
  conn w = Some c -> closed c = false ->
  TempFile env "/dev/shm/" "journal.XXXXX" = inl f ->
  Unlink env (FileName f) = None ->
  write env (Fd f) b = (n1, None) ->
  sendmsg env [] [Fd f] (addr w) = (n2, None) ->
  fallback env w e b n os
  = (Returned (Z.of_nat (List.length (buf e)), None),
     {| open_files :=
          filter (fun d => negb (d =? Fd f)) (Fd f :: open_files os) |},
     [EvTempFile "/dev/shm/" "journal.XXXXX"; EvUnlink (FileName f);
      EvFileWrite (Fd f) b; EvWriteMsgUnix [] [Fd f] (addr w);
      EvFileClose (Fd f)]).
Proof.
  intros Hc Hopen Ht Hu Hw Hs.
  unfold fallback, defer, fileClose, WriteMsgUnix, bind, emit, modify, ret.
  rewrite Ht, Hu, Hw, Hc, Hopen, Hs. reflexivity.
Qed.

(** [Close] changes nothing but the connection's closed mark. *)
Lemma Close_world (env : Env) (w : JournalWriter) (os : World) :
  world (Close env w os) = os.
Proof.
  unfold Close, connClose, bind, emit, ret, world.
  destruct (conn w) as [c|]; [destruct (closed c)|]; reflexivity.
Qed.

Lemma Close_writer (env : Env) (w : JournalWriter) (os : World) :
  snd (result (Close env w os))
  = {| JournalSocket := JournalSocket w; once := once w; addr := addr w;
       conn := option_map
                 (fun c => {| laddr := laddr c; closed := true |}) (conn w) |}.
Proof.
  unfold Close, connClose, bind, emit, ret, result.
  destruct w as [s o a [[la [|]]|]]; reflexivity.
Qed.

(** What [Close] does, by the connection it finds. *)
Lemma Close_cases (env : Env) (w : JournalWriter) (os : World) :
  Close env w os
  = match conn w with
    | None => (None, w, os, [])
    | Some c =>
        if closed c then
          (Some (OpError "close" (Some ErrNetClosing)),
           snd (result (Close env w os)), os, [])
        else
          (option_map (fun e => OpError "close" (Some e))
             (close env (laddr c)),
           snd (result (Close env w os)), os, [EvConnClose (laddr c)])
    end.
Proof.
  unfold Close, connClose, bind, emit, ret, result.
  destruct (conn w) as [c|]; [destruct (closed c)|]; reflexivity.
Qed.

Section Runs.

Variable unicodeToUpper : string -> string.
Variable jsonToDot : list byte -> dot + error.

Let WriteEntry := WriteEntry unicodeToUpper jsonToDot.
Let encodeEntry := Encoder.encodeEntry unicodeToUpper.

(** A call whose setup leaves no error and whose entry decodes is the
    pooled buffer, the send and the release of the buffer. *)
Lemma WriteEntry_send (env : Env) (w w1 : JournalWriter) (e : Entry)
    (os : World) (t : dot) :
  result (onceDo env w os) = (None, w1) ->
  jsonToDot (buf e) = inl t ->
  let s := send env w1 e (encodeEntry t (buf e)) os in
  WriteEntry env w e os
  = (result s, w1, world s,
     (events (onceDo env w os) ++ EvPoolGet :: events s ++ [EvPoolPut])%list).
Proof.
  intros Hinit Hdec s. subst s.
  pose proof (onceDo_world env w os) as Hw.
  unfold WriteEntry, Journal.WriteEntry, bind, defer, emit, ret.
  destruct (onceDo env w os) as [[[err w'] os'] evs0].
  unfold result, world in *. simpl in Hinit, Hw. inversion Hinit; subst.
  simpl. rewrite Hdec. unfold bind, defer, emit, ret. fold encodeEntry.
  destruct (send env w1 e (encodeEntry t (buf e)) os) as [[r s] l].
  simpl. now rewrite !app_nil_r.
Qed.

(** The writer a call leaves is the one the setup leaves. *)
Lemma WriteEntry_writer (env : Env) (w : JournalWriter) (e : Entry)
    (os : World) :
  writerOf (result (WriteEntry env w e os)) = snd (result (onceDo env w os)).
Proof.
  unfold WriteEntry, Journal.WriteEntry, bind, defer, emit, ret.
  destruct (onceDo env w os) as [[[err w'] os'] evs0].
  destruct err; simpl; [reflexivity|].
  destruct (jsonToDot (buf e)) as [t|derr]; [|reflexivity].
  unfold bind, defer, emit, ret.
  destruct (send env w' e (Encoder.encodeEntry unicodeToUpper t (buf e)) os')
    as [[r s] l].
  reflexivity.
Qed.

(** A reachable writer holds a connection only once its setup has run. *)
Lemma reachable_conn_once (w : JournalWriter) :
  reachable unicodeToUpper jsonToDot w -> conn w <> None -> once w = true.
Proof.
  induction 1 as [s|w env e os _ IH|w env os _ IH]; intros Hc.
  - now contradiction Hc.
  - fold WriteEntry. rewrite WriteEntry_writer. apply onceDo_once.
  - rewrite Close_writer in *. simpl in *. apply IH.
    destruct (conn w); [discriminate | assumption].
Qed.

(** A call on a writer whose connection is closed returns the decoder's
    error or else the closed-connection error of the send, which makes no
    call of the platform. *)
Lemma WriteEntry_closed (env : Env) (w : JournalWriter) (e : Entry)
    (os : World) (c : UnixConn) :
  once w = true -> conn w = Some c -> closed c = true ->
  WriteEntry env w e os
  = match jsonToDot (buf e) with
    | inr derr => (Returned (0, Some derr), w, os, [])
    | inl _ =>
        (Returned (0, Some (OpError "write" (Some ErrNetClosing))), w, os,
         [EvPoolGet; EvPoolPut])
    end.
Proof.
  intros Ho Hc Hcl.
  unfold WriteEntry, Journal.WriteEntry, bind, defer, emit, ret.
  rewrite (onceDo_done env w os Ho). simpl.
  destruct (jsonToDot (buf e)); [|reflexivity].
  unfold send, WriteMsgUnix, bind, ret. rewrite Hc, Hcl. reflexivity.
Qed.

(** A call on a writer whose setup has run and left no connection returns
    the error of the decoder, or else panics at the send on the nil
    connection, the buffer going back to the pool on the way out; the
    setup is not run again. *)
Lemma WriteEntry_no_conn (env : Env) (w : JournalWriter) (e : Entry)
    (os : World) :
  once w = true -> conn w = None ->
  WriteEntry env w e os
  = match jsonToDot (buf e) with
    | inr derr => (Returned (0, Some derr), w, os, [])
    | inl _ => (Panicked nilDereference, w, os, [EvPoolGet; EvPoolPut])
    end.
Proof.
  intros Ho Hc.
  unfold WriteEntry, Journal.WriteEntry, bind, defer, emit, ret.
  rewrite (onceDo_done env w os Ho). simpl.
  destruct (jsonToDot (buf e)); [|reflexivity].
  unfold send, WriteMsgUnix, bind, ret. rewrite Hc. reflexivity.
Qed.

End Runs.

End JournalFacts.

(** ** The writer's contract *)

Section WriterContract.

Import Journal JournalFacts.

Variable unicodeToUpper : string -> string.
Variable jsonToDot : list byte -> dot + error.

Let WriteEntry := WriteEntry unicodeToUpper jsonToDot.
Let encodeEntry := Encoder.encodeEntry unicodeToUpper.

(** The encoded entry holds the raw record as the value of its last
    field, so it is longer than the raw record. *)
Lemma encodeEntry_longer (t : dot) (raw : list byte) :
  Z.of_nat (List.length raw) < Z.of_nat (List.length (encodeEntry t raw)).
Proof.
  unfold encodeEntry. rewrite EncoderFacts.encodeEntry_flat_map.
  unfold Wire.fields. rewrite !flat_map_app, !length_app.
  cbn [flat_map fst snd]. rewrite !length_app. cbn [List.length].
  assert (H : (List.length raw
               < List.length (Encoder.print [] "JSON" (b2s raw)))%nat).
  { unfold Encoder.print, Encoder.Fprintln, Encoder.binaryWrite,
      Encoder.Fprintf, b2s, bytes.
    destruct (ContainsRune _ _); rewrite !length_app,
      list_byte_of_string_of_list_byte; simpl; lia. }
  lia.
Qed.

(** C1, as amended: when the direct send fails with a size limit as its
    cause and every step of the fallback succeeds, the call returns no
    error and, as its count, the length of the raw record [e.buf]; the
    bytes written to the temporary file are the encoded entry, which is
    longer. *)
Theorem fallback_reports_raw_length
    (env : Env) (w w1 : JournalWriter) (e : Entry) (os : World)
    (c : UnixConn) (t : dot) (n0 n1 n2 : Z) (cause : error) (f : File) :
  result (onceDo env w os) = (None, w1) ->
  conn w1 = Some c -> closed c = false ->
  jsonToDot (buf e) = inl t ->
  sendmsg env (encodeEntry t (buf e)) [] (addr w1) = (n0, Some cause) ->
  SizeLimit cause ->
  TempFile env "/dev/shm/" "journal.XXXXX" = inl f ->
  Unlink env (FileName f) = None ->
  write env (Fd f) (encodeEntry t (buf e)) = (n1, None) ->
  sendmsg env [] [Fd f] (addr w1) = (n2, None) ->
  result (WriteEntry env w e os)
  = (Returned (Z.of_nat (List.length (buf e)), None), w1)
  /\ In (EvFileWrite (Fd f) (encodeEntry t (buf e)))
        (events (WriteEntry env w e os))
  /\ Z.of_nat (List.length (buf e))
     < Z.of_nat (List.length (encodeEntry t (buf e))).
Proof.
  intros Hinit Hc Hopen Hdec Hsend Hsize Ht Hu Hw Hanc.
  unfold WriteEntry, encodeEntry in *.
  rewrite (WriteEntry_send _ _ env w w1 e os t Hinit Hdec).
  rewrite (send_fallback env w1 e _ os c n0 cause Hc Hopen Hsend Hsize).
  rewrite (fallback_ok env w1 e _ n0 n1 n2 os f c Hc Hopen Ht Hu Hw Hanc).
  unfold result, events. cbn [fst snd]. split; [reflexivity|]. split.
  - rewrite in_app_iff. right. simpl. tauto.
  - apply encodeEntry_longer.
Qed.

(** C3: once the setup has left no error and the entry is decoded, the
    fallback is entered (its first call asks for the temporary file)
    exactly when the direct send returned an error with a size limit as
    its cause; a send that returned any other error has its count and
    error returned as they are, and so has a send that succeeded.  The
    writer holds a connection, open or closed: on a nil connection the
    send does not return. *)
Theorem fallback_iff_size_limit
    (env : Env) (w w1 : JournalWriter) (e : Entry) (os : World)
    (c : UnixConn) (t : dot) (n0 : Z) (err0 : option error) :
  result (onceDo env w os) = (None, w1) ->
  conn w1 = Some c ->
  jsonToDot (buf e) = inl t ->
  result (WriteMsgUnix env (Some c) (encodeEntry t (buf e)) [] (addr w1) os)
  = Returned (n0, err0) ->
  (In (EvTempFile "/dev/shm/" "journal.XXXXX")
      (events (WriteEntry env w e os))
   <-> exists cause, err0 = Some cause /\ SizeLimit cause)
  /\ ((forall cause, err0 = Some cause -> ~ SizeLimit cause) ->
      result (WriteEntry env w e os) = (Returned (n0, err0), w1)).
Proof.
  intros Hinit Hc Hdec Hsend. rewrite <- Hc in Hsend.
  unfold WriteEntry, encodeEntry in *.
  rewrite (WriteEntry_send _ _ env w w1 e os t Hinit Hdec).
  unfold events at 1. cbn [snd].
  set (b := Encoder.encodeEntry unicodeToUpper t (buf e)) in *.
  set (tmp := EvTempFile "/dev/shm/" "journal.XXXXX").
  assert (Hsetup : ~ In tmp (events (onceDo env w os))).
  { intros Hin. apply onceDo_events in Hin.
    destruct Hin as [(? & ? & H)|(? & ? & H)]; discriminate H. }
  assert (Hdirect : ~ In tmp
                      (events (WriteMsgUnix env (conn w1) b [] (addr w1) os))).
  { destruct (WriteMsgUnix_run env (conn w1) b [] (addr w1) os)
      as [_ [-> | ->]]; simpl; [tauto|].
    intros [H|[]]; discriminate H. }
  assert (Hplain : (forall cause, err0 = Some cause -> ~ SizeLimit cause) ->
                   ~ In tmp
                       (events (onceDo env w os)
                        ++ EvPoolGet :: events (send env w1 e b os)
                        ++ [EvPoolPut])%list).
  { intros Hno. rewrite (send_returns env w1 e b os n0 err0 Hsend Hno).
    unfold events at 2. cbn [snd].
    rewrite in_app_iff. cbn [In]. rewrite in_app_iff. cbn [In].
    intros [H|[H|[H|[H|[]]]]]; try discriminate H; tauto. }
  split; [split|].
  - intros Hin. destruct err0 as [cause|].
    + destruct (SizeLimit_dec cause) as [Hs|Hn]; [eauto|]. exfalso.
      apply Hplain; [|exact Hin]. intros ? [= <-]. exact Hn.
    + exfalso. apply Hplain; [|exact Hin]. discriminate.
  - intros (cause & -> & Hs).
    rewrite (send_falls_back env w1 e b os n0 cause Hsend Hs).
    unfold events at 2. cbn [snd].
    destruct (fallback_first env w1 e b n0 os) as [rest ->].
    rewrite in_app_iff. right. right.
    rewrite in_app_iff. left. rewrite in_app_iff. right. left. reflexivity.
  - intros Hno.
    rewrite (send_returns env w1 e b os n0 err0 Hsend Hno).
    reflexivity.
Qed.

(** C10: in the fallback, once the temporary file exists, a failing
    unlink makes the call return the error of the unlink with the
    descriptor still open and never closed; after a successful unlink the
    descriptor is closed, as the last call before the buffer goes back to
    the pool, whatever the write to the file and the second send answer. *)
Theorem fallback_descriptor
    (env : Env) (w w1 : JournalWriter) (e : Entry) (os : World)
    (c : UnixConn) (t : dot) (n0 : Z) (cause : error) (f : File) :
  result (onceDo env w os) = (None, w1) ->
  conn w1 = Some c -> closed c = false ->
  jsonToDot (buf e) = inl t ->
  sendmsg env (encodeEntry t (buf e)) [] (addr w1) = (n0, Some cause) ->
  SizeLimit cause ->
  TempFile env "/dev/shm/" "journal.XXXXX" = inl f ->
  (forall uerr, Unlink env (FileName f) = Some uerr ->
     errorOf (result (WriteEntry env w e os)) = Returned (Some uerr)
     /\ In (Fd f) (open_files (world (WriteEntry env w e os)))
     /\ ~ In (EvFileClose (Fd f)) (events (WriteEntry env w e os)))
  /\ (Unlink env (FileName f) = None ->
      ~ In (Fd f) (open_files (world (WriteEntry env w e os)))
      /\ exists before,
           events (WriteEntry env w e os)
           = (before ++ [EvFileClose (Fd f); EvPoolPut])%list).
Proof.
  intros Hinit Hc Hopen Hdec Hsend Hsize Ht.
  unfold WriteEntry, encodeEntry in *.
  rewrite (WriteEntry_send _ _ env w w1 e os t Hinit Hdec).
  rewrite (send_fallback env w1 e _ os c n0 cause Hc Hopen Hsend Hsize).
  split.
  - intros uerr Hu.
    rewrite (fallback_unlink_failed env w1 e _ n0 os f uerr Ht Hu).
    unfold errorOf, result, world, events. cbn [fst snd open_files].
    split; [reflexivity|]. split; [left; reflexivity|].
    rewrite in_app_iff. intros [Hin|Hin].
    + apply onceDo_events in Hin.
      destruct Hin as [(? & ? & H)|(? & ? & H)]; discriminate H.
    + simpl in Hin.
      destruct Hin as [H|[H|[H|[H|[H|[]]]]]]; discriminate H.
  - intros Hu.
    destruct (fallback_unlinked env w1 e
                (Encoder.encodeEntry unicodeToUpper t (buf e)) n0 os f Ht Hu)
      as (mid & -> & ->).
    unfold world, events. cbn [fst snd open_files]. split.
    + rewrite filter_In. intros [_ H]. rewrite Z.eqb_refl in H. discriminate H.
    + eexists. cbn [app]. rewrite <- app_assoc. cbn [app].
      rewrite !app_comm_cons, app_assoc. reflexivity.
Qed.

(** C9, as amended, for a writer a program can hold.  On a writer with
    no connection [Close] returns nil, changes nothing and makes no call.
    On a writer with an open connection the first [Close] makes the one
    close call of that connection, returns the platform's answer (an
    error of it wrapped in an [OpError]) and leaves the connection marked
    closed, the other fields and the files as they were.  A second
    [Close] makes no call, changes neither the writer nor the world and
    returns the closed-connection error.  After the first [Close] every
    [WriteEntry] returns an error, the decoder's or the closed-connection
    error of the send, sends nothing and leaves the writer as it is. *)
Theorem Close_then_closed
    (env1 env2 : Env) (w : JournalWriter) (os : World) :
  reachable unicodeToUpper jsonToDot w ->
  let first := Close env1 w os in
  let second := Close env2 (snd (result first)) (world first) in
  (conn w = None -> first = (None, w, os, []))
  /\ (forall c, conn w = Some c -> closed c = false ->
      first
      = (option_map (fun e => OpError "close" (Some e)) (close env1 (laddr c)),
         {| JournalSocket := JournalSocket w; once := once w; addr := addr w;
            conn := Some {| laddr := laddr c; closed := true |} |},
         os, [EvConnClose (laddr c)])
      /\ second
         = (Some (OpError "close" (Some ErrNetClosing)),
            snd (result first), os, []))
  /\ (conn w <> None ->
      forall (env : Env) (e : Entry) (os' : World),
        WriteEntry env (snd (result first)) e os'
        = match jsonToDot (buf e) with
          | inr derr => (Returned (0, Some derr), snd (result first), os', [])
          | inl _ =>
              (Returned (0, Some (OpError "write" (Some ErrNetClosing))),
               snd (result first), os', [EvPoolGet; EvPoolPut])
          end).
Proof.
  intros Hreach first second. subst first second.
  split; [|split].
  - intros Hc. rewrite Close_cases, Hc. reflexivity.
  - intros c Hc Hopen.
    assert (H1 : Close env1 w os
                 = (option_map (fun e => OpError "close" (Some e))
                      (close env1 (laddr c)),
                    {| JournalSocket := JournalSocket w; once := once w;
                       addr := addr w;
                       conn := Some {| laddr := laddr c; closed := true |} |},
                    os, [EvConnClose (laddr c)])).
    { unfold Close, connClose, bind, emit, ret. rewrite Hc, Hopen.
      reflexivity. }
    rewrite H1. split; reflexivity.
  - intros Hconn env e os'.
    pose proof (reachable_conn_once _ _ w Hreach Hconn) as Honce.
    destruct (conn w) as [c|] eqn:Ec; [|contradiction].
    apply (WriteEntry_closed _ _ env _ e os'
             {| laddr := laddr c; closed := true |}).
    + rewrite Close_writer. exact Honce.
    + rewrite Close_writer. cbn [conn]. now rewrite Ec.
    + reflexivity.
Qed.

(** A setup that failed on a writer without a connection leaves the flag
    set and no connection: the later call returns the decoder's error or
    panics at the send, and never returns the error of the setup. *)
Lemma failed_setup_forgotten
    (env env' : Env) (w w1 : JournalWriter) (e : Entry) (os os' : World)
    (err : error) :
  conn w = None ->
  result (onceDo env w os) = (Some err, w1) ->
  WriteEntry env' w1 e os'
  = match jsonToDot (buf e) with
    | inr derr => (Returned (0, Some derr), w1, os', [])
    | inl _ => (Panicked nilDereference, w1, os', [EvPoolGet; EvPoolPut])
    end.
Proof.
  intros Hc Hinit. unfold WriteEntry.
  apply WriteEntry_no_conn.
  - replace w1 with (snd (result (onceDo env w os))) by (now rewrite Hinit).
    apply onceDo_once.
  - revert Hinit. unfold onceDo, bind, emit, ret, result.
    destruct (once w); [discriminate|].
    destruct (ResolveUnixAddr env _ _); simpl.
    + destruct (ListenUnixgram env _ _); simpl; intros [= _ <-];
        reflexivity.
    + intros [= _ <-]. exact Hc.
Qed.

End WriterContract.

(** ** The contract on the sample platforms *)

Import Journal Samples.

(** C1 on the platform whose datagrams are too small: the count is the
    length of the raw record. *)
Lemma fallback_reports_raw_length_witness :
  result (WriteEntry noUnicode decodeHello smallEnv (newWriter "") helloEntry os0)
  = (Returned (Z.of_nat (List.length (buf helloEntry)), None), readyWriter)
  /\ In (EvFileWrite (Fd shmFile)
           (Encoder.encodeEntry noUnicode helloDot (buf helloEntry)))
        (events
           (WriteEntry noUnicode decodeHello smallEnv (newWriter "")
              helloEntry os0))
  /\ Z.of_nat (List.length (buf helloEntry))
     < Z.of_nat
         (List.length (Encoder.encodeEntry noUnicode helloDot (buf helloEntry))).
Proof.
  apply (fallback_reports_raw_length noUnicode decodeHello smallEnv
           (newWriter "") readyWriter helloEntry os0
           {| laddr := autobind; closed := false |} helloDot 0 91 0
           tooLarge shmFile);
    try reflexivity.
  exists "write", "sendmsg", EMSGSIZE. split; [reflexivity | left; reflexivity].
Defined.

(** C1 as stated fails: on that platform the direct send of the 91
    encoded bytes fails with [EMSGSIZE], the 91 bytes are written to the
    temporary file, the send of its descriptor succeeds, and the call
    returns 49, the length of the raw record, with no error. *)
Lemma fallback_count_counterexample :
  sendmsg smallEnv (Encoder.encodeEntry noUnicode helloDot (buf helloEntry))
    [] journalAddr = (0, Some tooLarge)
  /\ events
       (WriteEntry noUnicode decodeHello smallEnv (newWriter "") helloEntry os0)
     = [ EvResolveUnixAddr "unixgram" "";
         EvListenUnixgram "unixgram" autobind;
         EvPoolGet;
         EvWriteMsgUnix
           (Encoder.encodeEntry noUnicode helloDot (buf helloEntry))
           [] journalAddr;
         EvTempFile "/dev/shm/" "journal.XXXXX";
         EvUnlink (FileName shmFile);
         EvFileWrite (Fd shmFile)
           (Encoder.encodeEntry noUnicode helloDot (buf helloEntry));
         EvWriteMsgUnix [] [Fd shmFile] journalAddr;
         EvFileClose (Fd shmFile);
         EvPoolPut ]
  /\ List.length (Encoder.encodeEntry noUnicode helloDot (buf helloEntry))
     = 91%nat
  /\ result
       (WriteEntry noUnicode decodeHello smallEnv (newWriter "") helloEntry os0)
     = (Returned (49, None), readyWriter)
  /\ countOf (result
       (WriteEntry noUnicode decodeHello smallEnv (newWriter "") helloEntry os0))
     <> Returned
          (Z.of_nat
             (List.length
                (Encoder.encodeEntry noUnicode helloDot (buf helloEntry)))).
Proof.
  repeat split; try reflexivity. vm_compute. discriminate.
Qed.

(** C2 on the platform that cannot bind: the first call returns the
    error of the bind.  The next calls do not run the setup again and do
    not return that error: for an entry that decodes the call takes a
    buffer, panics at the send on the nil connection and gives the buffer
    back on the way out, on the same platform and on one where every call
    would succeed; for an entry that does not decode it returns the
    decoder's error. *)
Lemma setup_error_returned_once :
  result (WriteEntry noUnicode decodeHello noBindEnv (newWriter "")
            helloEntry os0)
  = (Returned (0, Some bindFailed), failedWriter)
  /\ conn failedWriter = None
  /\ once failedWriter = true
  /\ WriteEntry noUnicode decodeHello noBindEnv failedWriter helloEntry os0
     = (Panicked nilDereference, failedWriter, os0, [EvPoolGet; EvPoolPut])
  /\ WriteEntry noUnicode decodeHello okEnv failedWriter helloEntry os0
     = (Panicked nilDereference, failedWriter, os0, [EvPoolGet; EvPoolPut])
  /\ WriteEntry noUnicode decodeHello noBindEnv failedWriter badEntry os0
     = (Returned (0, Some (ErrorString "invalid json")), failedWriter, os0, []).
Proof.
  repeat split; reflexivity.
Qed.

(** C3 on the platform where nobody listens: the send fails with
    [ECONNREFUSED], no temporary file is asked for and the error comes
    back as it is. *)
Lemma fallback_iff_size_limit_witness :
  (In (EvTempFile "/dev/shm/" "journal.XXXXX")
      (events
         (WriteEntry noUnicode decodeHello refusedEnv (newWriter "")
            helloEntry os0))
   <-> exists cause, Some refused = Some cause /\ SizeLimit cause)
  /\ ((forall cause, Some refused = Some cause -> ~ SizeLimit cause) ->
      result
        (WriteEntry noUnicode decodeHello refusedEnv (newWriter "")
           helloEntry os0)
      = (Returned (0, Some refused), readyWriter)).
Proof.
  apply (fallback_iff_size_limit noUnicode decodeHello refusedEnv
           (newWriter "") readyWriter helloEntry os0
           {| laddr := autobind; closed := false |} helloDot 0 (Some refused));
    reflexivity.
Defined.

(** C10 on the platform that refuses the unlink: the descriptor 7 stays
    open. *)
Lemma fallback_descriptor_witness :
  (forall uerr, Unlink smallNoUnlinkEnv (FileName shmFile) = Some uerr ->
     errorOf (result
       (WriteEntry noUnicode decodeHello smallNoUnlinkEnv (newWriter "")
          helloEntry os0)) = Returned (Some uerr)
     /\ In (Fd shmFile)
          (open_files (world
             (WriteEntry noUnicode decodeHello smallNoUnlinkEnv (newWriter "")
                helloEntry os0)))
     /\ ~ In (EvFileClose (Fd shmFile))
            (events
               (WriteEntry noUnicode decodeHello smallNoUnlinkEnv
                  (newWriter "") helloEntry os0)))
  /\ (Unlink smallNoUnlinkEnv (FileName shmFile) = None ->
      ~ In (Fd shmFile)
          (open_files (world
             (WriteEntry noUnicode decodeHello smallNoUnlinkEnv (newWriter "")
                helloEntry os0)))
      /\ exists before,
           events
             (WriteEntry noUnicode decodeHello smallNoUnlinkEnv (newWriter "")
                helloEntry os0)
           = (before ++ [EvFileClose (Fd shmFile); EvPoolPut])%list).
Proof.
  apply (fallback_descriptor noUnicode decodeHello smallNoUnlinkEnv
           (newWriter "") readyWriter helloEntry os0
           {| laddr := autobind; closed := false |} helloDot 0
           tooLarge shmFile);
    try reflexivity.
  exists "write", "sendmsg", EMSGSIZE. split; [reflexivity | left; reflexivity].
Defined.

(** C9 on a writer that has sent one entry. *)
Lemma Close_then_closed_witness :
  (conn readyWriter = None ->
   Close okEnv readyWriter os0 = (None, readyWriter, os0, []))
  /\ (forall c, conn readyWriter = Some c -> closed c = false ->
      Close okEnv readyWriter os0
      = (option_map (fun e => OpError "close" (Some e)) (close okEnv (laddr c)),
         {| JournalSocket := JournalSocket readyWriter;
            once := once readyWriter; addr := addr readyWriter;
            conn := Some {| laddr := laddr c; closed := true |} |},
         os0, [EvConnClose (laddr c)])
      /\ Close okEnv (snd (result (Close okEnv readyWriter os0)))
           (world (Close okEnv readyWriter os0))
         = (Some (OpError "close" (Some ErrNetClosing)),
            snd (result (Close okEnv readyWriter os0)), os0, []))
  /\ (conn readyWriter <> None ->
      forall (env : Env) (e : Entry) (os' : World),
        WriteEntry noUnicode decodeHello env
          (snd (result (Close okEnv readyWriter os0))) e os'
        = match decodeHello (buf e) with
          | inr derr =>
              (Returned (0, Some derr),
               snd (result (Close okEnv readyWriter os0)), os', [])
          | inl _ =>
              (Returned (0, Some (OpError "write" (Some ErrNetClosing))),
               snd (result (Close okEnv readyWriter os0)), os',
               [EvPoolGet; EvPoolPut])
          end).
Proof.
  apply (Close_then_closed noUnicode decodeHello okEnv okEnv readyWriter os0).
  unfold readyWriter. apply reach_WriteEntry. apply reach_new.
Defined.

(** C9 as stated fails: [Close] on a writer that has not written yet
    finds no connection, returns nil and changes nothing, and the
    [WriteEntry] that follows sets the endpoint up and sends its 91 bytes
    without error. *)
Lemma Close_fresh_counterexample :
  Close okEnv (newWriter "") os0 = (None, newWriter "", os0, [])
  /\ result
       (WriteEntry noUnicode decodeHello okEnv
          (snd (result (Close okEnv (newWriter "") os0))) helloEntry os0)
     = (Returned (91, None), readyWriter).
Proof. split; reflexivity. Qed.

(** The second [Close] of a connection returns the closed-connection
    error where the first returned nil. *)
Example Close_twice_errors :
  fst (result (Close okEnv readyWriter os0)) = None
  /\ fst (result (Close okEnv (snd (result (Close okEnv readyWriter os0))) os0))
     = Some (OpError "close" (Some ErrNetClosing)).
Proof. split; reflexivity. Qed.

(** ** Every run of WriteEntry ends at one of its returns *)

Module PathFacts.

Import Journal JournalFacts Paths.

(** A direct send that fails with a size limit was made on an open
    connection, and the failure is the platform's. *)
Lemma direct_size_limit (env : Env) (cn : option UnixConn) (b : list byte)
    (oob : list Z) (to : option UnixAddr) (os : World) (n0 : Z)
    (cause : error) :
  result (WriteMsgUnix env cn b oob to os) = Returned (n0, Some cause) ->
  SizeLimit cause ->
  exists c, cn = Some c /\ closed c = false
            /\ sendmsg env b oob to = (n0, Some cause).
Proof.
  intros Hr (op & sc & code & -> & _). revert Hr.
  unfold WriteMsgUnix, bind, emit, ret, result.
  destruct cn as [c|]; [destruct (closed c) eqn:Ec|]; simpl.
  - intros H. discriminate H.
  - destruct (sendmsg env b oob to) as [n e0] eqn:Es. simpl.
    intros [= -> ->]. exists c. auto.
  - intros H. discriminate H.
Qed.

Lemma fallback_tempfile_failed (env : Env) (w : JournalWriter) (e : Entry)
    (b : list byte) (n : Z) (os : World) (terr : error) :
  TempFile env "/dev/shm/" "journal.XXXXX" = inr terr ->
  fallback env w e b n os
  = (Returned (n, Some terr), os, [EvTempFile "/dev/shm/" "journal.XXXXX"]).
Proof.
  intros Ht. unfold fallback, bind, emit, ret. rewrite Ht. reflexivity.
Qed.

Lemma fallback_write_failed (env : Env) (w : JournalWriter) (e : Entry)
    (b : list byte) (n n1 : Z) (os : World) (f : File) (werr : error) :
  TempFile env "/dev/shm/" "journal.XXXXX" = inl f ->
  Unlink env (FileName f) = None ->
  write env (Fd f) b = (n1, Some werr) ->
  fallback env w e b n os
  = (Returned (n1, Some werr),
     {| open_files :=
          filter (fun d => negb (d =? Fd f)) (Fd f :: open_files os) |},
     [EvTempFile "/dev/shm/" "journal.XXXXX"; EvUnlink (FileName f);
      EvFileWrite (Fd f) b; EvFileClose (Fd f)]).
Proof.
  intros Ht Hu Hw.
  unfold fallback, defer, fileClose, bind, emit, modify, ret.
  rewrite Ht, Hu, Hw. reflexivity.
Qed.

Lemma fallback_end (env : Env) (w : JournalWriter) (e : Entry)
    (b : list byte) (n n1 n2 : Z) (os : World) (f : File) (c : UnixConn)
    (serr : option error) :
  conn w = Some c -> closed c = false ->
  TempFile env "/dev/shm/" "journal.XXXXX" = inl f ->
  Unlink env (FileName f) = None ->
  write env (Fd f) b = (n1, None) ->
  sendmsg env [] [Fd f] (addr w) = (n2, serr) ->
  fallback env w e b n os
  = (Returned
       ((if isNil serr then Z.of_nat (List.length (buf e)) else n1), serr),
     {| open_files :=
          filter (fun d => negb (d =? Fd f)) (Fd f :: open_files os) |},
     [EvTempFile "/dev/shm/" "journal.XXXXX"; EvUnlink (FileName f);
      EvFileWrite (Fd f) b; EvWriteMsgUnix [] [Fd f] (addr w);
      EvFileClose (Fd f)]).
Proof.
  intros Hc Hopen Ht Hu Hw Hs.
  unfold fallback, defer, fileClose, WriteMsgUnix, bind, emit, modify, ret.
  rewrite Ht, Hu, Hw, Hc, Hopen, Hs. destruct serr; reflexivity.
Qed.

Section Paths.

Variable unicodeToUpper : string -> string.
Variable jsonToDot : list byte -> dot + error.

Local Abbreviation WriteEntry := (Journal.WriteEntry unicodeToUpper jsonToDot).
Local Abbreviation encodeEntry := (Encoder.encodeEntry unicodeToUpper).
Local Abbreviation Returns := (Paths.Returns unicodeToUpper jsonToDot).

Lemma WriteEntry_setup_failed (env : Env) (w w1 : JournalWriter) (e : Entry)
    (os : World) (err : error) :
  result (onceDo env w os) = (Some err, w1) ->
  WriteEntry env w e os
  = (Returned (0, Some err), w1, os, events (onceDo env w os)).
Proof.
  intros Hinit. pose proof (onceDo_world env w os) as Hw.
  unfold Journal.WriteEntry, bind, ret.
  destruct (onceDo env w os) as [[[err' w'] os'] evs0].
  unfold result, world, events in *. simpl in *.
  inversion Hinit; subst. simpl. now rewrite app_nil_r.
Qed.

Lemma WriteEntry_decode_failed (env : Env) (w w1 : JournalWriter)
    (e : Entry) (os : World) (derr : error) :
  result (onceDo env w os) = (None, w1) ->
  jsonToDot (buf e) = inr derr ->
  WriteEntry env w e os
  = (Returned (0, Some derr), w1, os, events (onceDo env w os)).
Proof.
  intros Hinit Hdec. pose proof (onceDo_world env w os) as Hw.
  unfold Journal.WriteEntry, bind, ret.
  destruct (onceDo env w os) as [[[err' w'] os'] evs0].
  unfold result, world, events in *. simpl in *.
  inversion Hinit; subst. simpl. rewrite Hdec. simpl. now rewrite app_nil_r.
Qed.

(** The function and the list of its returns agree. *)
Lemma WriteEntry_returns (env : Env) (w : JournalWriter) (e : Entry)
    (os : World) :
  Returns env w e os (WriteEntry env w e os).
Proof.
  destruct (result (onceDo env w os)) as [[err|] w1] eqn:Hinit.
  { rewrite (WriteEntry_setup_failed env w w1 e os err Hinit).
    now apply return_setup. }
  destruct (jsonToDot (buf e)) as [t|derr] eqn:Hdec.
  2:{ rewrite (WriteEntry_decode_failed env w w1 e os derr Hinit Hdec).
      now apply return_decode. }
  rewrite (WriteEntry_send unicodeToUpper jsonToDot env w w1 e os t Hinit Hdec).
  set (b := encodeEntry t (buf e)).
  destruct (WriteMsgUnix_outcome env (conn w1) b [] (addr w1) os)
    as [[Hnil _]|(n0 & err0 & _ & Hd)].
  { rewrite (send_panics env w1 e b os Hnil).
    unfold result, world, events. cbn [fst snd app].
    now apply panic_direct with (t := t). }
  assert (Hcases : (forall cause, err0 = Some cause -> ~ SizeLimit cause)
                   \/ exists cause, err0 = Some cause /\ SizeLimit cause).
  { destruct err0 as [cause|]; [|left; discriminate].
    destruct (SizeLimit_dec cause) as [Hs|Hn]; [right; eauto|].
    left. intros ? [= <-]. exact Hn. }
  destruct Hcases as [Hno|(cause & -> & Hs)].
  { rewrite (send_returns env w1 e b os n0 err0 Hd Hno).
    unfold result, world, events at 2. cbn [fst snd].
    now apply return_direct with (t := t). }
  destruct (direct_size_limit env _ b [] _ os n0 cause Hd Hs)
    as (c & Hc & Hopen & Hsend).
  assert (Hov : Oversized unicodeToUpper jsonToDot env w w1 e os c t n0 cause)
    by (unfold Oversized; auto 7).
  rewrite (send_fallback env w1 e b os c n0 cause Hc Hopen Hsend Hs).
  destruct (TempFile env "/dev/shm/" "journal.XXXXX") as [f|terr] eqn:Ht.
  2:{ rewrite (fallback_tempfile_failed env w1 e b n0 os terr Ht).
      now apply return_tempfile with (c := c) (cause := cause). }
  destruct (Unlink env (FileName f)) as [uerr|] eqn:Hu.
  { rewrite (fallback_unlink_failed env w1 e b n0 os f uerr Ht Hu).
    now apply return_unlink with (c := c) (cause := cause). }
  destruct (write env (Fd f) b) as [n1 [werr|]] eqn:Hw.
  { rewrite (fallback_write_failed env w1 e b n0 n1 os f werr Ht Hu Hw).
    now apply return_write with (c := c) (n0 := n0) (cause := cause). }
  destruct (sendmsg env [] [Fd f] (addr w1)) as [n2 serr] eqn:Ha.
  rewrite (fallback_end env w1 e b n0 n1 n2 os f c serr Hc Hopen Ht Hu Hw Ha).
  now apply return_end with (c := c) (n0 := n0) (cause := cause) (n2 := n2).
Qed.

End Paths.

End PathFacts.

(** ** What every call does and never does *)

Section WriterBehaviour.

Import Journal JournalFacts Paths PathFacts.

Variable unicodeToUpper : string -> string.
Variable jsonToDot : list byte -> dot + error.

Local Abbreviation WriteEntry := (Journal.WriteEntry unicodeToUpper jsonToDot).
Local Abbreviation encodeEntry := (Encoder.encodeEntry unicodeToUpper).
Local Abbreviation reachable := (Journal.reachable unicodeToUpper jsonToDot).

(** The direct send made its one call or, on a connection that is nil
    or closed, none. *)
Ltac direct_events :=
  match goal with
  | |- context [events (WriteMsgUnix ?env ?c ?b ?oob ?to ?os)] =>
      destruct (WriteMsgUnix_run env c b oob to os) as [_ [-> | ->]]
  end.

Lemma onceDo_setup_events (env : Env) (w : JournalWriter) (os : World) :
  forallb isSetup (events (onceDo env w os)) = true.
Proof.
  apply forallb_forall. intros ev Hin. apply onceDo_events in Hin.
  destruct Hin as [(? & ? & ->)|(? & ? & ->)]; reflexivity.
Qed.

Lemma direct_ok (env : Env) (cn : option UnixConn) (b : list byte)
    (oob : list Z) (to : option UnixAddr) (os : World) (n0 : Z) :
  result (WriteMsgUnix env cn b oob to os) = Returned (n0, None) ->
  exists c, cn = Some c /\ closed c = false
            /\ sendmsg env b oob to = (n0, None).
Proof.
  unfold WriteMsgUnix, bind, emit, ret, result.
  destruct cn as [c|]; [destruct (closed c) eqn:Ec|]; simpl.
  - intros H. discriminate H.
  - destruct (sendmsg env b oob to) as [n e0] eqn:Es. simpl.
    intros [= -> ->]. exists c. auto.
  - intros H. discriminate H.
Qed.

(** The setup leaves the configured socket name alone and stores the
    destination it names. *)
Lemma onceDo_fields (env : Env) (w : JournalWriter) (os : World) :
  JournalSocket (snd (result (onceDo env w os))) = JournalSocket w
  /\ (once w = false ->
      addr (snd (result (onceDo env w os))) = Some (destination w)).
Proof.
  unfold onceDo, bind, emit, ret, result, destination.
  destruct (once w); [split; [reflexivity | discriminate]|].
  destruct (ResolveUnixAddr env _ _); simpl;
    [destruct (ListenUnixgram env _ _); simpl|];
    (split; [reflexivity|]); intros _;
    destruct (String.eqb (JournalSocket w) ""); reflexivity.
Qed.

(** A reachable writer whose setup has run holds its destination. *)
Lemma reachable_addr (w : JournalWriter) :
  reachable w -> once w = true -> addr w = Some (destination w).
Proof.
  induction 1 as [s|w env e os _ IH|w env os _ IH].
  - discriminate.
  - intros _. rewrite WriteEntry_writer.
    destruct (onceDo_fields env w os) as [Hs Ha].
    unfold destination in *. rewrite Hs.
    destruct (once w) eqn:Eo.
    + rewrite (onceDo_done env w os Eo). apply IH. reflexivity.
    + apply Ha. reflexivity.
  - rewrite Close_writer. simpl. exact IH.
Qed.

(** X1: a call leaves the once flag set; a later call, also after a
    [Close] in between, leaves the writer as it found it and makes no
    call of the setup (no address resolution, no bind). *)
Theorem setup_only_on_first_call
    (env1 env2 env3 : Env) (w : JournalWriter) (e1 e2 : Entry)
    (os1 os2 os3 : World) :
  let w1 := writerOf (result (WriteEntry env1 w e1 os1)) in
  let w2 := snd (result (Close env3 w1 os3)) in
  once w1 = true
  /\ writerOf (result (WriteEntry env2 w1 e2 os2)) = w1
  /\ forallb (fun ev => negb (isSetup ev))
        (events (WriteEntry env2 w1 e2 os2)) = true
  /\ writerOf (result (WriteEntry env2 w2 e2 os2)) = w2
  /\ forallb (fun ev => negb (isSetup ev))
        (events (WriteEntry env2 w2 e2 os2)) = true.
Proof.
  intros w1 w2.
  assert (H1 : once w1 = true)
    by (unfold w1; rewrite WriteEntry_writer; apply onceDo_once).
  assert (H2 : once w2 = true)
    by (unfold w2; rewrite Close_writer; exact H1).
  assert (Hlater : forall w', once w' = true ->
            writerOf (result (WriteEntry env2 w' e2 os2)) = w'
            /\ forallb (fun ev => negb (isSetup ev))
                 (events (WriteEntry env2 w' e2 os2)) = true).
  { intros w' Ho. split.
    - rewrite WriteEntry_writer, (onceDo_done env2 w' os2 Ho). reflexivity.
    - pose proof (WriteEntry_returns unicodeToUpper jsonToDot env2 w' e2 os2)
        as Hr.
      remember (WriteEntry env2 w' e2 os2) as run eqn:Erun. clear Erun.
      destruct Hr; rewrite (onceDo_done env2 w' os2 Ho);
        try direct_events; reflexivity. }
  split; [exact H1|].
  destruct (Hlater w1 H1) as [Ha Hb]. destruct (Hlater w2 H2) as [Hc Hd].
  auto.
Qed.

(** X2: on a writer a program can hold, a call leaves the configured
    socket name as it was and the destination stored: the configured name
    or, when that is empty, /run/systemd/journal/socket, on the unixgram
    network; every send of the call, direct or with the descriptor, goes
    to that destination. *)
Theorem sends_go_to_destination
    (env : Env) (w : JournalWriter) (e : Entry) (os : World) :
  reachable w ->
  JournalSocket (writerOf (result (WriteEntry env w e os))) = JournalSocket w
  /\ addr (writerOf (result (WriteEntry env w e os))) = Some (destination w)
  /\ Forall (fun ev => match ev with
                       | EvWriteMsgUnix _ _ to => to = Some (destination w)
                       | _ => True
                       end)
        (events (WriteEntry env w e os)).
Proof.
  intros Hreach.
  assert (Hs : JournalSocket (writerOf (result (WriteEntry env w e os)))
               = JournalSocket w)
    by (rewrite WriteEntry_writer; apply onceDo_fields).
  assert (Ha : addr (writerOf (result (WriteEntry env w e os)))
               = Some (destination w)).
  { replace (destination w)
      with (destination (writerOf (result (WriteEntry env w e os))))
      by (unfold destination; now rewrite Hs).
    apply reachable_addr.
    - now apply reach_WriteEntry.
    - rewrite WriteEntry_writer. apply onceDo_once. }
  split; [exact Hs|]. split; [exact Ha|]. clear Hs.
  pose proof (WriteEntry_returns unicodeToUpper jsonToDot env w e os) as Hr.
  pose proof (onceDo_setup_events env w os) as Hsetup.
  rewrite forallb_forall in Hsetup.
  remember (WriteEntry env w e os) as run eqn:Erun. clear Erun.
  assert (Hpre : Forall (fun ev => match ev with
                                   | EvWriteMsgUnix _ _ to =>
                                       to = Some (destination w)
                                   | _ => True
                                   end) (events (onceDo env w os))).
  { apply Forall_forall. intros ev Hin. apply Hsetup in Hin.
    destruct ev; try exact I. discriminate Hin. }
  destruct Hr; unfold writerOf, result in Ha; cbn [fst snd] in Ha;
    unfold events at 1; cbn [snd]; try exact Hpre;
    apply Forall_app; (split; [exact Hpre|]);
    try direct_events; repeat constructor; exact Ha.
Qed.

(** X3: when the setup has left no error and the entry does not decode,
    the call returns zero and the decoder's error; it takes no buffer,
    sends nothing and opens no file: its only calls are those of the
    setup, if this was the first call. *)
Theorem decode_error_aborts
    (env : Env) (w : JournalWriter) (e : Entry) (os : World) (derr : error) :
  fst (result (onceDo env w os)) = None ->
  jsonToDot (buf e) = inr derr ->
  countOf (result (WriteEntry env w e os)) = Returned 0
  /\ errorOf (result (WriteEntry env w e os)) = Returned (Some derr)
  /\ world (WriteEntry env w e os) = os
  /\ forallb isSetup (events (WriteEntry env w e os)) = true
  /\ (once w = true -> events (WriteEntry env w e os) = []).
Proof.
  intros Hinit Hdec.
  destruct (result (onceDo env w os)) as [err w1] eqn:E. simpl in Hinit.
  subst err.
  rewrite (WriteEntry_decode_failed _ _ env w w1 e os derr E Hdec).
  repeat split.
  - apply onceDo_setup_events.
  - intros Ho. unfold events at 1. cbn [snd].
    now rewrite (onceDo_done env w os Ho).
Qed.

(** X4: of the files it opens (the temporary file of the fallback) the
    call leaves none open, except the temporary file when its unlink
    failed: every descriptor in the table of open files after the call
    was there before, or is that file's.  The socket the setup binds is
    not a file of that table; it stays with the writer's connection. *)
Theorem no_descriptor_left_open
    (env : Env) (w : JournalWriter) (e : Entry) (os : World) :
  Forall (fun d =>
            In d (open_files os)
            \/ exists f uerr,
                 TempFile env "/dev/shm/" "journal.XXXXX" = inl f
                 /\ Unlink env (FileName f) = Some uerr
                 /\ d = Fd f)
    (open_files (world (WriteEntry env w e os))).
Proof.
  pose proof (WriteEntry_returns unicodeToUpper jsonToDot env w e os) as Hr.
  remember (WriteEntry env w e os) as run eqn:Erun. clear Erun.
  assert (Hsame : Forall (fun d =>
            In d (open_files os)
            \/ exists f uerr,
                 TempFile env "/dev/shm/" "journal.XXXXX" = inl f
                 /\ Unlink env (FileName f) = Some uerr
                 /\ d = Fd f) (open_files os))
    by (apply Forall_forall; auto).
  assert (Hclosed : forall f, Forall (fun d =>
            In d (open_files os)
            \/ exists f uerr,
                 TempFile env "/dev/shm/" "journal.XXXXX" = inl f
                 /\ Unlink env (FileName f) = Some uerr
                 /\ d = Fd f)
            (filter (fun d => negb (d =? Fd f)) (Fd f :: open_files os))).
  { intros f. apply Forall_forall. intros d Hd.
    apply filter_In in Hd. destruct Hd as [[<- | Hin] Hne]; [|auto].
    rewrite Z.eqb_refl in Hne. discriminate Hne. }
  destruct Hr; unfold world; cbn [fst snd open_files];
    try exact Hsame; try apply Hclosed.
  constructor; [right; eauto | exact Hsame].
Qed.

(** X5: a call that takes a buffer from the pool gives it back exactly
    once, as its last act: the calls of a run are those of the setup
    alone, or those followed by the taking of the buffer, calls that do
    not touch the pool, and the giving back. *)
Theorem buffer_returned_last
    (env : Env) (w : JournalWriter) (e : Entry) (os : World) :
  forallb isSetup (events (onceDo env w os)) = true
  /\ (events (WriteEntry env w e os) = events (onceDo env w os)
      \/ exists mid,
           events (WriteEntry env w e os)
           = (events (onceDo env w os) ++ EvPoolGet :: mid ++ [EvPoolPut])%list
           /\ forallb (fun ev => negb (isPool ev)) mid = true).
Proof.
  split; [apply onceDo_setup_events|].
  pose proof (WriteEntry_returns unicodeToUpper jsonToDot env w e os) as Hr.
  remember (WriteEntry env w e os) as run eqn:Erun. clear Erun.
  destruct Hr; unfold events at 1; cbn [snd]; auto; right.
  - eexists. split; [reflexivity|]. direct_events; reflexivity.
  - exists []. split; reflexivity.
  - exists [EvWriteMsgUnix (encodeEntry t (buf e)) [] (addr w1);
            EvTempFile "/dev/shm/" "journal.XXXXX"]. split; reflexivity.
  - exists [EvWriteMsgUnix (encodeEntry t (buf e)) [] (addr w1);
            EvTempFile "/dev/shm/" "journal.XXXXX"; EvUnlink (FileName f)].
    split; reflexivity.
  - exists [EvWriteMsgUnix (encodeEntry t (buf e)) [] (addr w1);
            EvTempFile "/dev/shm/" "journal.XXXXX"; EvUnlink (FileName f);
            EvFileWrite (Fd f) (encodeEntry t (buf e)); EvFileClose (Fd f)].
    split; reflexivity.
  - exists [EvWriteMsgUnix (encodeEntry t (buf e)) [] (addr w1);
            EvTempFile "/dev/shm/" "journal.XXXXX"; EvUnlink (FileName f);
            EvFileWrite (Fd f) (encodeEntry t (buf e));
            EvWriteMsgUnix [] [Fd f] (addr w1); EvFileClose (Fd f)].
    split; reflexivity.
Qed.

(** X6: what the calls of a run carry.  A send without descriptor carries
    the encoded entry; a send with a descriptor carries no byte and the
    one descriptor of the temporary file; the bytes written to that file
    are the encoded entry; the file is asked for in /dev/shm/ under the
    pattern journal.XXXXX, and it is that file that is unlinked and
    closed.  The connection is never closed by a call. *)
Theorem calls_carry_the_entry
    (env : Env) (w : JournalWriter) (e : Entry) (os : World) :
  Forall (fun ev =>
            match ev with
            | EvWriteMsgUnix b [] _ =>
                exists t, jsonToDot (buf e) = inl t
                          /\ b = encodeEntry t (buf e)
            | EvWriteMsgUnix b oob _ =>
                b = [] /\ exists f,
                  TempFile env "/dev/shm/" "journal.XXXXX" = inl f
                  /\ oob = [Fd f]
            | EvFileWrite fd b =>
                exists t f,
                  jsonToDot (buf e) = inl t
                  /\ TempFile env "/dev/shm/" "journal.XXXXX" = inl f
                  /\ fd = Fd f /\ b = encodeEntry t (buf e)
            | EvTempFile dir pattern =>
                dir = "/dev/shm/" /\ pattern = "journal.XXXXX"
            | EvUnlink name =>
                exists f, TempFile env "/dev/shm/" "journal.XXXXX" = inl f
                          /\ name = FileName f
            | EvFileClose fd =>
                exists f, TempFile env "/dev/shm/" "journal.XXXXX" = inl f
                          /\ fd = Fd f
            | EvConnClose _ => False
            | _ => True
            end)
    (events (WriteEntry env w e os)).
Proof.
  pose proof (WriteEntry_returns unicodeToUpper jsonToDot env w e os) as Hr.
  pose proof (onceDo_setup_events env w os) as Hsetup.
  rewrite forallb_forall in Hsetup.
  remember (WriteEntry env w e os) as run eqn:Erun. clear Erun.
  match goal with
  | |- Forall ?P _ => assert (Hpre : Forall P (events (onceDo env w os)))
  end.
  { apply Forall_forall. intros ev Hin. apply Hsetup in Hin.
    destruct ev; try exact I; discriminate Hin. }
  destruct Hr; unfold events at 1; cbn [snd]; try exact Hpre;
    apply Forall_app; (split; [exact Hpre|]);
    try match goal with
        | H : Oversized _ _ _ _ _ _ _ _ _ _ _ |- _ =>
            destruct H as (_ & _ & _ & ? & _ & _)
        end;
    try direct_events; repeat constructor; eauto 6.
Qed.

(** X7: the result of a call whose direct send failed with a size limit
    as its cause, step by step: the error of the first step that fails,
    with the count of the direct send when that step is the creation or
    the unlink of the temporary file, and the count of the file write
    when it is the write or the send of the descriptor; when no step
    fails, no error and the length of the raw record. *)
Theorem fallback_result_table
    (env : Env) (w w1 : JournalWriter) (e : Entry) (os : World)
    (c : UnixConn) (t : dot) (n0 : Z) (cause : error) :
  Oversized unicodeToUpper jsonToDot env w w1 e os c t n0 cause ->
  result (WriteEntry env w e os)
  = match TempFile env "/dev/shm/" "journal.XXXXX" with
    | inr terr => (Returned (n0, Some terr), w1)
    | inl f =>
        match Unlink env (FileName f) with
        | Some uerr => (Returned (n0, Some uerr), w1)
        | None =>
            match write env (Fd f) (encodeEntry t (buf e)) with
            | (n1, Some werr) => (Returned (n1, Some werr), w1)
            | (n1, None) =>
                match sendmsg env [] [Fd f] (addr w1) with
                | (_, Some serr) => (Returned (n1, Some serr), w1)
                | (_, None) =>
                    (Returned (Z.of_nat (List.length (buf e)), None), w1)
                end
            end
        end
    end.
Proof.
  intros (Hinit & Hc & Hopen & Hdec & Hsend & Hs).
  rewrite (WriteEntry_send _ _ env w w1 e os t Hinit Hdec).
  rewrite (send_fallback env w1 e _ os c n0 cause Hc Hopen Hsend Hs).
  unfold result at 1. cbn [fst].
  destruct (TempFile env "/dev/shm/" "journal.XXXXX") as [f|terr] eqn:Ht.
  2:{ now rewrite (fallback_tempfile_failed env w1 e _ n0 os terr Ht). }
  destruct (Unlink env (FileName f)) as [uerr|] eqn:Hu.
  { now rewrite (fallback_unlink_failed env w1 e _ n0 os f uerr Ht Hu). }
  destruct (write env (Fd f) (encodeEntry t (buf e))) as [n1 [werr|]] eqn:Hw.
  { now rewrite (fallback_write_failed env w1 e _ n0 n1 os f werr Ht Hu Hw). }
  destruct (sendmsg env [] [Fd f] (addr w1)) as [n2 serr] eqn:Ha.
  rewrite (fallback_end env w1 e _ n0 n1 n2 os f c serr Hc Hopen Ht Hu Hw Ha).
  destruct serr; reflexivity.
Qed.

(** X8: a call that returns no error has delivered the entry: the setup
    left an open connection, the entry was decoded, and either the
    platform took the encoded entry in the direct send, whose count is
    returned, or it refused it for its size, took all of it into the
    unlinked temporary file and took the descriptor, and the count is the
    length of the raw record. *)
Theorem success_means_delivered
    (env : Env) (w : JournalWriter) (e : Entry) (os : World) :
  errorOf (result (WriteEntry env w e os)) = Returned None ->
  exists (w1 : JournalWriter) (c : UnixConn) (t : dot),
    result (onceDo env w os) = (None, w1)
    /\ writerOf (result (WriteEntry env w e os)) = w1
    /\ conn w1 = Some c /\ closed c = false
    /\ jsonToDot (buf e) = inl t
    /\ ((exists n,
           sendmsg env (encodeEntry t (buf e)) [] (addr w1) = (n, None)
           /\ countOf (result (WriteEntry env w e os)) = Returned n)
        \/ (exists n0 cause f n1 n2,
             sendmsg env (encodeEntry t (buf e)) [] (addr w1)
             = (n0, Some cause)
             /\ SizeLimit cause
             /\ TempFile env "/dev/shm/" "journal.XXXXX" = inl f
             /\ Unlink env (FileName f) = None
             /\ write env (Fd f) (encodeEntry t (buf e)) = (n1, None)
             /\ sendmsg env [] [Fd f] (addr w1) = (n2, None)
             /\ countOf (result (WriteEntry env w e os))
                = Returned (Z.of_nat (List.length (buf e))))).
Proof.
  pose proof (WriteEntry_returns unicodeToUpper jsonToDot env w e os) as Hr.
  remember (WriteEntry env w e os) as run eqn:Erun. clear Erun.
  destruct Hr; unfold errorOf, countOf, writerOf, result;
    cbn [fst snd]; intros Herr; try discriminate Herr.
  - injection Herr as ->.
    match goal with
    | H : result (WriteMsgUnix _ _ _ _ _ _) = _ |- _ =>
        destruct (direct_ok _ _ _ _ _ _ _ H) as (c & Hc & Hopen & Hsend)
    end.
    exists w1, c, t. repeat (split; [assumption || reflexivity|]).
    left. eauto.
  - injection Herr as ->.
    match goal with
    | H : Oversized _ _ _ _ _ _ _ _ _ _ _ |- _ =>
        destruct H as (Hinit & Hc & Hopen & Hdec & Hsend & Hs)
    end.
    exists w1, c, t. repeat (split; [assumption || reflexivity|]).
    right. exists n0, cause, f, n1, n2. cbn [isNil]. auto 10.
Qed.

End WriterBehaviour.

(** ** Reading the encoder's output back *)

Module ReaderFacts.

Import BytesFacts Encoder Wire Reader EncoderFacts.

Lemma untilSep_name (n r : list byte) (sep : byte) :
  ~ In EQ n -> ~ In LF n -> sep = EQ \/ sep = LF ->
  untilSep (n ++ sep :: r) = (n, Some (sep, r)).
Proof.
  intros Heq Hlf Hsep. induction n as [|c n IH]; simpl.
  - destruct Hsep as [-> | ->]; reflexivity.
  - destruct (Byte.eqb c EQ) eqn:E1.
    { apply Byte.byte_dec_bl in E1. subst. simpl in Heq. tauto. }
    destruct (Byte.eqb c LF) eqn:E2.
    { apply Byte.byte_dec_bl in E2. subst. simpl in Hlf. tauto. }
    simpl. rewrite IH by (simpl in Heq, Hlf; tauto). reflexivity.
Qed.

Lemma untilLF_value (v r : list byte) :
  ~ In LF v -> untilLF (v ++ LF :: r) = (v, Some r).
Proof.
  intros Hlf. induction v as [|c v IH]; simpl.
  - reflexivity.
  - destruct (Byte.eqb c LF) eqn:E.
    { apply Byte.byte_dec_bl in E. subst. simpl in Hlf. tauto. }
    rewrite IH by (simpl in Hlf; tauto). reflexivity.
Qed.

Lemma readFields_step (fuel : nat) (c : byte) (l : list byte) :
  readFields (S fuel) (c :: l)
  = match untilSep (c :: l) with
    | (n, Some (sep, r)) =>
        if Byte.eqb sep EQ then
          match untilLF r with
          | (v, Some r') =>
              option_map (cons (b2s n, b2s v)) (readFields fuel r')
          | (_, None) => None
          end
        else
          if (List.length r <? 8)%nat then None
          else
            let size := Z.to_nat (Uint64 (firstn 8 r)) in
            let v := firstn size (skipn 8 r) in
            match skipn size (skipn 8 r) with
            | c :: r' =>
                if Byte.eqb c LF && (List.length v =? size)%nat then
                  option_map (cons (b2s n, b2s v)) (readFields fuel r')
                else None
            | [] => None
            end
    | (_, None) => None
    end.
Proof. reflexivity. Qed.

Lemma PutUint64_firstn (v : Z) (r : list byte) :
  firstn 8 (PutUint64 v ++ r) = PutUint64 v.
Proof. reflexivity. Qed.

Lemma PutUint64_skipn (v : Z) (r : list byte) :
  skipn 8 (PutUint64 v ++ r) = r.
Proof. reflexivity. Qed.

Lemma PutUint64_short (v : Z) (r : list byte) :
  (List.length (PutUint64 v ++ r) <? 8)%nat = false.
Proof. reflexivity. Qed.

(** What [print] writes for one field is read back as that field. *)
Lemma readFields_print (fuel : nat) (name value : string) (tail : list byte) :
  nameOK name -> len value < 2 ^ 64 ->
  readFields (S fuel) (print [] name value ++ tail)
  = option_map (cons (name, value)) (readFields fuel tail).
Proof.
  intros [Heq Hlf] Hlen.
  apply ContainsRune_false in Heq, Hlf.
  change (byte_of_ascii "="%char) with EQ in Heq.
  change (byte_of_ascii newline) with LF in Hlf.
  unfold print, Fprintln, binaryWrite, Fprintf. cbn [app].
  destruct (ContainsRune value newline) eqn:Ev.
  - set (size := PutUint64 (uint64 (len value))).
    replace ((((bytes name ++ [LF]) ++ size) ++ bytes value ++ [LF]) ++ tail)%list
      with (bytes name ++ LF :: size ++ bytes value ++ LF :: tail)%list
      by (rewrite <- ?app_assoc; cbn [app]; rewrite <- ?app_assoc;
          reflexivity).
    destruct (bytes name ++ LF :: size ++ bytes value ++ LF :: tail)%list
      as [|c l] eqn:El; [destruct (bytes name); discriminate El|].
    rewrite readFields_step, <- El.
    rewrite untilSep_name by auto.
    change (Byte.eqb LF EQ) with false. cbv iota.
    assert (Hsize : Uint64 size = len value).
    { unfold size. rewrite Uint64_PutUint64. unfold uint64.
      rewrite Z.mod_mod by lia. apply Z.mod_small. unfold len in *. lia. }
    unfold size at 1 2 3 4.
    rewrite PutUint64_short, PutUint64_firstn, PutUint64_skipn.
    fold size. rewrite Hsize. cbv zeta.
    unfold len. rewrite Nat2Z.id, <- (length_bytes value).
    rewrite firstn_app, firstn_all, Nat.sub_diag. cbn [firstn].
    rewrite app_nil_r, skipn_app, skipn_all, Nat.sub_diag. cbn [skipn app].
    change (Byte.eqb LF LF) with true. rewrite Nat.eqb_refl. cbn [andb].
    now rewrite !b2s_bytes.
  - apply ContainsRune_false in Ev.
    change (byte_of_ascii newline) with LF in Ev.
    replace ((bytes name ++ EQ :: bytes value ++ [LF]) ++ tail)%list
      with (bytes name ++ EQ :: bytes value ++ LF :: tail)%list
      by (rewrite <- ?app_assoc; cbn [app]; rewrite <- ?app_assoc;
          reflexivity).
    destruct (bytes name ++ EQ :: bytes value ++ LF :: tail)%list
      as [|c l] eqn:El; [destruct (bytes name); discriminate El|].
    rewrite readFields_step, <- El.
    rewrite untilSep_name by auto.
    change (Byte.eqb EQ EQ) with true. cbv iota.
    rewrite untilLF_value by exact Ev.
    now rewrite !b2s_bytes.
Qed.

Lemma print_not_empty (name value : string) :
  (1 <= List.length (print [] name value))%nat.
Proof.
  unfold print, Fprintln, binaryWrite, Fprintf.
  destruct (ContainsRune value newline); rewrite !length_app; simpl; lia.
Qed.

Lemma readFields_flat_map (fs : list Field) (fuel : nat) :
  Forall (fun f => nameOK (fst f) /\ len (snd f) < 2 ^ 64) fs ->
  (List.length fs <= fuel)%nat ->
  readFields fuel (flat_map (fun f => print [] (fst f) (snd f)) fs) = Some fs.
Proof.
  intros Hok. revert fuel.
  induction Hok as [|[n v] fs [Hn Hv] _ IH]; intros fuel Hfuel.
  - destruct fuel; reflexivity.
  - destruct fuel as [|fuel]; [simpl in Hfuel; lia|].
    cbn [flat_map fst snd] in *.
    rewrite (readFields_print fuel n v _ Hn Hv).
    rewrite IH by (simpl in Hfuel; lia). reflexivity.
Qed.

Lemma flat_map_print_length (fs : list Field) :
  (List.length fs
   <= List.length (flat_map (fun f => print [] (fst f) (snd f)) fs))%nat.
Proof.
  induction fs as [|[n v] fs IH]; [simpl; lia|].
  cbn [flat_map fst snd List.length]. rewrite length_app.
  pose proof (print_not_empty n v). lia.
Qed.

(** Uppercasing an ASCII byte neither makes nor unmakes an [=] or a
    newline. *)
Lemma upperASCII_separator (a c : ascii) :
  c = "="%char \/ c = newline ->
  Ascii.eqb (Strings.upperASCII a) c = Ascii.eqb a c.
Proof.
  intros [-> | ->]; destruct a as [[] [] [] [] [] [] [] []]; reflexivity.
Qed.

Lemma ToUpper_ascii_separator (up : string -> string) (k : string) (c : ascii) :
  c = "="%char \/ c = newline ->
  Strings.isASCII k = true ->
  ContainsRune (Strings.ToUpper up k) c = ContainsRune k c.
Proof.
  intros Hc Hk. unfold Strings.ToUpper. rewrite Hk. clear Hk.
  induction k as [|a k IH]; [reflexivity|].
  cbn [Strings.Map ContainsRune].
  now rewrite (upperASCII_separator a c Hc), IH.
Qed.

End ReaderFacts.

Section EncoderBehaviour.

Import BytesFacts Encoder Wire Reader EncoderFacts ReaderFacts.

Variable unicodeToUpper : string -> string.

(** X9: the encoded entry can be read back field by field, values of
    several lines included: when no emitted name holds an [=] or a
    newline (and every value is shorter than 2^64 bytes, as every Go
    string is), a reader that takes a value up to the newline after an
    [=], and by its eight-byte length after a name closed by a newline,
    finds exactly the emitted fields in their order. *)
Theorem export_roundtrip (t : dot) (raw : list byte) :
  Forall (fun f => nameOK (fst f) /\ len (snd f) < 2 ^ 64)
    (fields unicodeToUpper t raw) ->
  readExport (encodeEntry unicodeToUpper t raw)
  = Some (fields unicodeToUpper t raw).
Proof.
  intros Hok. unfold readExport. rewrite encodeEntry_flat_map.
  apply readFields_flat_map; [exact Hok | apply flat_map_print_length].
Qed.

(** X10: for an entry whose keys are ASCII and hold neither [=] nor
    newline and whose message, values and raw record hold no newline,
    the plain rule reads the encoded entry back as the emitted fields,
    whatever the Unicode mapping. *)
Theorem plain_roundtrip_ascii_keys (t : dot) (raw : list byte) :
  ContainsRune (Message t) newline = false ->
  ContainsRune (b2s raw) newline = false ->
  Forall (fun kv =>
            Strings.isASCII (Key kv) = true
            /\ ContainsRune (Key kv) "="%char = false
            /\ ContainsRune (Key kv) newline = false
            /\ ContainsRune (Value kv) newline = false)
    (KeyValues t) ->
  parsePlain (encodeEntry unicodeToUpper t raw) = fields unicodeToUpper t raw.
Proof.
  intros Hm Hraw Hkv.
  assert (Hr : Forall readable (fields unicodeToUpper t raw)).
  { unfold fields. apply Forall_app. split; [|apply Forall_app; split].
    - repeat constructor; cbn [fst snd]; try exact Hm.
      destruct (dLevel t); reflexivity.
    - apply Forall_map. apply Forall_impl with (2 := Hkv).
      intros kv (Ha & He & Hn & Hv). unfold readable. cbn [fst snd].
      rewrite !ToUpper_ascii_separator by auto. auto.
    - repeat constructor. exact Hraw. }
  rewrite encodeEntry_flat_map.
  rewrite <- (parsePlain_plain _ Hr) at 2. f_equal.
  induction Hr as [|[n v] fs [_ [_ Hv]] _ IH]; [reflexivity|].
  cbn [flat_map fst snd]. now rewrite IH, (print_plain n v Hv).
Qed.

End EncoderBehaviour.

(** ** The behaviour on the sample platforms *)

Import Paths Reader MoreSamples.

(** X2 on a fresh writer without a configured socket name. *)
Lemma sends_go_to_destination_witness :
  JournalSocket
    (writerOf (result
       (WriteEntry noUnicode decodeHello smallEnv (newWriter "") helloEntry os0)))
  = JournalSocket (newWriter "")
  /\ addr
       (writerOf (result
          (WriteEntry noUnicode decodeHello smallEnv (newWriter "")
             helloEntry os0)))
     = Some (destination (newWriter ""))
  /\ Forall (fun ev => match ev with
                       | EvWriteMsgUnix _ _ to =>
                           to = Some (destination (newWriter ""))
                       | _ => True
                       end)
       (events
          (WriteEntry noUnicode decodeHello smallEnv (newWriter "")
             helloEntry os0)).
Proof.
  apply (sends_go_to_destination noUnicode decodeHello smallEnv (newWriter "")
           helloEntry os0).
  apply reach_new.
Defined.

(** X3 on an entry the sample decoder rejects, at the first call. *)
Lemma decode_error_aborts_witness :
  countOf (result
    (WriteEntry noUnicode decodeHello okEnv (newWriter "") badEntry os0))
  = Returned 0
  /\ errorOf (result
       (WriteEntry noUnicode decodeHello okEnv (newWriter "") badEntry os0))
     = Returned (Some (ErrorString "invalid json"))
  /\ world (WriteEntry noUnicode decodeHello okEnv (newWriter "") badEntry os0)
     = os0
  /\ forallb isSetup
       (events
          (WriteEntry noUnicode decodeHello okEnv (newWriter "") badEntry os0))
     = true
  /\ (once (newWriter "") = true ->
      events
        (WriteEntry noUnicode decodeHello okEnv (newWriter "") badEntry os0)
      = []).
Proof.
  apply (decode_error_aborts noUnicode decodeHello okEnv (newWriter "")
           badEntry os0 (ErrorString "invalid json"));
    reflexivity.
Defined.

(** X7 on the platform that refuses the descriptor: the count is 91, the
    bytes written to the file, with the error of the second send. *)
Lemma fallback_result_table_witness :
  result
    (WriteEntry noUnicode decodeHello smallRefusedEnv (newWriter "")
       helloEntry os0)
  = match TempFile smallRefusedEnv "/dev/shm/" "journal.XXXXX" with
    | inr terr => (Returned (0, Some terr), readyWriter)
    | inl f =>
        match Unlink smallRefusedEnv (FileName f) with
        | Some uerr => (Returned (0, Some uerr), readyWriter)
        | None =>
            match write smallRefusedEnv (Fd f)
                    (Encoder.encodeEntry noUnicode helloDot (buf helloEntry))
            with
            | (n1, Some werr) => (Returned (n1, Some werr), readyWriter)
            | (n1, None) =>
                match sendmsg smallRefusedEnv [] [Fd f] (addr readyWriter) with
                | (_, Some serr) => (Returned (n1, Some serr), readyWriter)
                | (_, None) =>
                    (Returned (Z.of_nat (List.length (buf helloEntry)), None),
                     readyWriter)
                end
            end
        end
    end.
Proof.
  apply (fallback_result_table noUnicode decodeHello smallRefusedEnv
           (newWriter "") readyWriter helloEntry os0 openConn helloDot 0
           tooLarge).
  unfold Oversized. repeat (split; [reflexivity|]).
  exists "write", "sendmsg", EMSGSIZE. split; [reflexivity | left; reflexivity].
Defined.

(** X8 on the platform where every call succeeds. *)
Lemma success_means_delivered_witness :
  exists (w1 : JournalWriter) (c : UnixConn) (t : dot),
    result (onceDo okEnv (newWriter "") os0) = (None, w1)
    /\ writerOf (result
         (WriteEntry noUnicode decodeHello okEnv (newWriter "") helloEntry os0))
       = w1
    /\ conn w1 = Some c /\ closed c = false
    /\ decodeHello (buf helloEntry) = inl t
    /\ ((exists n,
           sendmsg okEnv (Encoder.encodeEntry noUnicode t (buf helloEntry)) []
             (addr w1) = (n, None)
           /\ countOf (result
                (WriteEntry noUnicode decodeHello okEnv (newWriter "")
                   helloEntry os0)) = Returned n)
        \/ (exists n0 cause f n1 n2,
             sendmsg okEnv (Encoder.encodeEntry noUnicode t (buf helloEntry))
               [] (addr w1) = (n0, Some cause)
             /\ SizeLimit cause
             /\ TempFile okEnv "/dev/shm/" "journal.XXXXX" = inl f
             /\ Unlink okEnv (FileName f) = None
             /\ write okEnv (Fd f)
                  (Encoder.encodeEntry noUnicode t (buf helloEntry))
                = (n1, None)
             /\ sendmsg okEnv [] [Fd f] (addr w1) = (n2, None)
             /\ countOf (result
                  (WriteEntry noUnicode decodeHello okEnv (newWriter "")
                     helloEntry os0))
                = Returned (Z.of_nat (List.length (buf helloEntry))))).
Proof.
  apply (success_means_delivered noUnicode decodeHello okEnv (newWriter "")
           helloEntry os0).
  reflexivity.
Defined.

(** X9 on an entry whose message has two lines. *)
Lemma export_roundtrip_witness :
  readExport (Encoder.encodeEntry noUnicode twoLinesDot rawA1)
  = Some (Wire.fields noUnicode twoLinesDot rawA1).
Proof.
  apply (export_roundtrip noUnicode twoLinesDot rawA1).
  repeat (constructor; [split; [split; reflexivity | reflexivity]|]).
  constructor.
Defined.

(** X10 on the entry of the scenario. *)
Lemma plain_roundtrip_ascii_keys_witness :
  Wire.parsePlain (Encoder.encodeEntry noUnicode helloDot rawA1)
  = Wire.fields noUnicode helloDot rawA1.
Proof.
  apply (plain_roundtrip_ascii_keys noUnicode helloDot rawA1);
    try reflexivity.
  repeat constructor.
Defined.
